(** * kids-video-hub: the video catalogue, progress engine and playlist sync

    A shallow embedding of [shared/schema.ts] (the URL classifier and the
    record shapes) and of [server/storage.ts] and [server/routes.ts] (the
    [DatabaseStorage] class and the Express handlers in front of it).

    Conventions of the embedding:
    - a table is the list of its rows in insertion order; [select ... where]
      is [filter], [update ... where] rewrites the matching rows in place,
      [delete ... where] drops them and [insert] appends (primary keys are
      not enforced: an insert never fails);
    - a JSON object used as a dictionary ([assigned], [progress],
      [dailyWatchTime]) is a [gmap] on string keys: the properties the
      object owns, which are the ones the [jsonb] column stores and
      [Object.keys] lists. Every such object also inherits the properties
      of [Object.prototype] ([Js.inherited_names]). Where the key of an
      assignment [obj[k] = v] comes with the request, as the kid id of
      [markVideoWatched] and [saveVideoPosition] does, the assignment is
      [Js.assign], which stores nothing under [__proto__]; the loops over
      the rows of [kidsTable] write under the ids that [createKid] drew;
    - a JavaScript [number] is an IEEE-754 double ([float]); the integer
      columns [total_views] and [priority] are [Z]; a number written into a
      [jsonb] column goes through [Js.json_number] and one bound to an
      [integer] column through [Js.int4];
    - a string is the sequence of its UTF-8 bytes;
    - the store gives no order to the rows of a [select] without
      [ORDER BY]: the list order of a table stands for one such order;
    - an optional field is an [option]; JavaScript truthiness is spelled out
      where the code relies on it;
    - the clock and the random identifiers are explicit arguments. *)

From Stdlib Require Import ZArith String Ascii Bool List PrimFloat SpecFloat FloatOps Lia.
From stdpp Require Import base option list gmap strings.

Open Scope string_scope.
Open Scope Z_scope.

(** ** String primitives of the JavaScript runtime *)

Module Js.

(** [s.startsWith(p)] *)
Fixpoint starts_with (p s : string) : bool :=
  match p, s with
  | EmptyString, _ => true
  | String a p', String b s' => Ascii.eqb a b && starts_with p' s'
  | String _ _, EmptyString => false
  end.

(** [s.includes(p)] *)
Fixpoint includes (p s : string) : bool :=
  starts_with p s ||
  match s with
  | EmptyString => false
  | String _ s' => includes p s'
  end.

Fixpoint drop (n : nat) (s : string) : string :=
  match n, s with
  | O, _ => s
  | S _, EmptyString => EmptyString
  | S n', String _ s' => drop n' s'
  end.

(** [s.replace(p, r)] with a string pattern: the first occurrence only. *)
Fixpoint replace_first (p r s : string) : string :=
  if starts_with p s then String.append r (drop (String.length p) s)
  else match s with
       | EmptyString => EmptyString
       | String a s' => String a (replace_first p r s')
       end.

Definition lower_ascii (c : ascii) : ascii :=
  let n := nat_of_ascii c in
  if (Nat.leb 65 n && Nat.leb n 90)%bool then ascii_of_nat (n + 32) else c.

(** [s.toLowerCase()] on the ASCII range. *)
Fixpoint to_lower (s : string) : string :=
  match s with
  | EmptyString => EmptyString
  | String c s' => String (lower_ascii c) (to_lower s')
  end.

(** The white space and line terminators of one byte: U+0009 to U+000D and
    U+0020. *)
Definition is_space (c : ascii) : bool :=
  let n := nat_of_ascii c in
  (Nat.leb 9 n && Nat.leb n 13)%bool || Nat.eqb n 32.

(** The white space of two bytes in UTF-8: U+00A0 (C2 A0). *)
Definition is_space2 (a b : ascii) : bool :=
  Nat.eqb (nat_of_ascii a) 194 && Nat.eqb (nat_of_ascii b) 160.

(** The white space and line terminators of three bytes in UTF-8: U+1680
    (E1 9A 80), U+2000 to U+200A (E2 80 80 to 8A), U+2028 and U+2029
    (E2 80 A8 and A9), U+202F (E2 80 AF), U+205F (E2 81 9F), U+3000
    (E3 80 80) and U+FEFF (EF BB BF). *)
Definition is_space3 (a b c : ascii) : bool :=
  let x := nat_of_ascii a in
  let y := nat_of_ascii b in
  let z := nat_of_ascii c in
  Nat.eqb x 225 && Nat.eqb y 154 && Nat.eqb z 128
  || Nat.eqb x 226 && Nat.eqb y 128
     && (Nat.leb 128 z && Nat.leb z 138 || Nat.eqb z 168 || Nat.eqb z 169
         || Nat.eqb z 175)
  || Nat.eqb x 226 && Nat.eqb y 129 && Nat.eqb z 159
  || Nat.eqb x 227 && Nat.eqb y 128 && Nat.eqb z 128
  || Nat.eqb x 239 && Nat.eqb y 187 && Nat.eqb z 191.

(** The bytes left once the sequences that [w1], [w2] and [w3] recognise are
    taken off the front. *)
Fixpoint strip (w1 : ascii -> bool) (w2 : ascii -> ascii -> bool)
    (w3 : ascii -> ascii -> ascii -> bool) (l : list ascii) : list ascii :=
  match l with
  | [] => []
  | a :: l1 =>
      if w1 a then strip w1 w2 w3 l1
      else match l1 with
           | [] => l
           | b :: l2 =>
               if w2 a b then strip w1 w2 w3 l2
               else match l2 with
                    | [] => l
                    | c :: l3 => if w3 a b c then strip w1 w2 w3 l3 else l
                    end
           end
  end.

Definition strip_front : list ascii -> list ascii :=
  strip is_space is_space2 is_space3.

(** The same on the reversed bytes, where a sequence is met last byte
    first. *)
Definition strip_back : list ascii -> list ascii :=
  strip is_space (fun b a => is_space2 a b) (fun c b a => is_space3 a b c).

(** [s.trimStart()] *)
Definition trim_start (s : string) : string :=
  string_of_list_ascii (strip_front (list_ascii_of_string s)).

(** [s.trimEnd()] *)
Definition trim_end (s : string) : string :=
  string_of_list_ascii (rev (strip_back (rev (list_ascii_of_string s)))).

(** [s.trim()]: the white space and the line terminators of ECMAScript are
    taken off both ends. *)
Definition trim (s : string) : string := trim_end (trim_start s).

(** [s.split(sep)] for a one-character separator. *)
Fixpoint split (sep : ascii) (s : string) : list string :=
  match s with
  | EmptyString => [EmptyString]
  | String c s' =>
      if Ascii.eqb c sep then EmptyString :: split sep s'
      else match split sep s' with
           | [] => [String c EmptyString]
           | w :: ws => String c w :: ws
           end
  end.

(** Truthiness of a string: every string but the empty one. *)
Definition truthy (s : string) : bool :=
  match s with EmptyString => false | String _ _ => true end.

(** [xs.filter(Boolean)] on an array of strings. *)
Definition filter_Boolean (xs : list string) : list string :=
  List.filter truthy xs.

(** [xs.indexOf(x)], [None] for -1. *)
Fixpoint index_of (x : string) (xs : list string) : option nat :=
  match xs with
  | [] => None
  | y :: ys => if String.eqb y x then Some O
               else option_map S (index_of x ys)
  end.

Definition is_digit (c : ascii) : bool :=
  let n := nat_of_ascii c in (Nat.leb 48 n && Nat.leb n 57)%bool.

Fixpoint all_digits (s : string) : bool :=
  match s with
  | EmptyString => true
  | String c s' => is_digit c && all_digits s'
  end.

(** [/^\d+$/.test(s)] *)
Definition digits_only (s : string) : bool := truthy s && all_digits s.

(** [o || d] on an optional string: [undefined] and the empty string are
    both falsy. *)
Definition str_or (o : option string) (d : string) : string :=
  match o with
  | Some s => if truthy s then s else d
  | None => d
  end.

(** An optional string kept only when it is truthy ([x || null],
    [if (x) return x]). *)
Definition keep_truthy (o : option string) : option string :=
  match o with
  | Some s => if truthy s then Some s else None
  | None => None
  end.

(** Truthiness of a number: every number but [0], [-0] and [NaN]. *)
Definition num_truthy (x : float) : bool :=
  negb (PrimFloat.eqb x 0%float) && PrimFloat.eqb x x.

(** [o || 0] on an optional number. *)
Definition num_or_zero (o : option float) : float :=
  match o with
  | Some x => if num_truthy x then x else 0%float
  | None => 0%float
  end.

(** What [JSON.stringify] followed by [JSON.parse] makes of a number, as when
    it is written into a [jsonb] column and read again: [NaN] and the
    infinities become [null], [-0] becomes [0]. *)
Definition json_number (x : float) : option float :=
  if PrimFloat.is_finite x
  then Some (if PrimFloat.eqb x 0%float then 0%float else x)
  else None.

(** What the store makes of a number bound to an [integer] column: the
    driver sends its decimal form, which the store accepts when the number
    is whole and within 32 bits, and refuses otherwise ([None]). *)
Definition int4 (x : float) : option Z :=
  match Prim2SF x with
  | S754_zero _ => Some 0
  | S754_finite s m e =>
      let n := if 0 <=? e then Z.pos m * 2 ^ e else Z.pos m / 2 ^ (- e) in
      let whole := (0 <=? e) || (Z.pos m mod 2 ^ (- e) =? 0) in
      let v := if s then - n else n in
      if whole && (-2147483648 <=? v) && (v <=? 2147483647) then Some v else None
  | _ => None
  end.

(** The number of characters of a string: the bytes that do not continue a
    UTF-8 sequence. *)
Fixpoint code_points (s : string) : nat :=
  match s with
  | EmptyString => O
  | String c s' =>
      let n := nat_of_ascii c in
      ((if (Nat.leb 128 n && Nat.leb n 191)%bool then O else 1) + code_points s')%nat
  end.

(** The store keeps no text with a NUL character. *)
Fixpoint storable (s : string) : bool :=
  match s with
  | EmptyString => true
  | String c s' => negb (Nat.eqb (nat_of_ascii c) 0) && storable s'
  end.

(** A string fits a [varchar(64)] column. *)
Definition varchar64 (s : string) : bool := storable s && Nat.leb (code_points s) 64.

(** The property names every plain object inherits from
    [Object.prototype]: [obj[k]] is an object of the runtime, not
    [undefined], when [k] is one of them and [obj] has no property of its
    own under [k]. *)
Definition inherited_names : list string :=
  ["__proto__"; "constructor"; "hasOwnProperty"; "isPrototypeOf";
   "propertyIsEnumerable"; "toLocaleString"; "toString"; "valueOf";
   "__defineGetter__"; "__defineSetter__"; "__lookupGetter__"; "__lookupSetter__"].

Definition inherited (k : string) : bool := bool_decide (k ∈ inherited_names).

(** [obj[k] = v] for an object literal [v]. Every inherited property but
    [__proto__] is a plain value that the assignment shadows with a property
    of [obj]; [__proto__] is an accessor, and unless [obj] has a property of
    its own under that name the assignment replaces the prototype of [obj]
    and gives it no property: nothing that [JSON.stringify] writes. *)
Definition assign {V} (k : string) (v : V) (obj : gmap string V) : gmap string V :=
  match obj !! k with
  | Some _ => <[k := v]> obj
  | None => if String.eqb k "__proto__" then obj else <[k := v]> obj
  end.

(** [Math.max(a, b)]: [NaN] as soon as one argument is. *)
Definition math_max (a b : float) : float :=
  if negb (PrimFloat.eqb a a) then a
  else if negb (PrimFloat.eqb b b) then b
  else if PrimFloat.ltb a b then b
  else if PrimFloat.ltb b a then a
  else if PrimFloat.eqb a 0%float then PrimFloat.add a b   (* +0 beats -0 *)
  else a.

End Js.

(** ** The [URL] class of the runtime

    [new URL(s)] either throws or yields an object of which the classifier
    reads [hostname], [pathname] and [searchParams]. The parser belongs to the
    platform, not to this repository: it is an interface here, and the
    classifier is verified against every implementation of it. *)

Record Url := mkUrl {
  hostname : string;
  pathname : string;
  searchParams : list (string * string)
}.

Class UrlApi := new_URL : string -> option Url.

(** [u.searchParams.get(k)]: the first value stored under [k]. *)
Fixpoint searchParams_get (k : string) (qs : list (string * string)) : option string :=
  match qs with
  | [] => None
  | (k', v) :: qs' => if String.eqb k' k then Some v else searchParams_get k qs'
  end.

(** ** shared/schema.ts: platforms and the classifier *)

Inductive VideoPlatform := youtube | tiktok.

#[global] Instance VideoPlatform_eq_dec : EqDecision VideoPlatform.
Proof. solve_decision. Defined.

Definition MAX_VIDEO_VIEWS : Z := 4.
Definition VIDEO_PRIORITY_DEFAULT : Z := 5.

(** The host as both rule sets read it: the first [www.] of [u.hostname]
    removed, then lower case. *)
Definition host_of (u : Url) : string :=
  Js.to_lower (Js.replace_first "www." EmptyString (hostname u)).

(** [u.pathname.split("/").filter(Boolean)] *)
Definition path_parts (u : Url) : list string :=
  Js.filter_Boolean (Js.split "/" (pathname u)).

(** The path rule of [getYouTubeId]: [/shorts/<id>] or [/embed/<id>]. *)
Definition youtube_path_id (parts : list string) : option string :=
  match parts with
  | p0 :: p1 :: _ =>
      if String.eqb p0 "shorts" && Js.truthy p1 then Some p1
      else if String.eqb p0 "embed" && Js.truthy p1 then Some p1
      else None
  | _ => None
  end.

(** The path rule of [getTikTokId]: a [video] segment followed by a numeric
    one. *)
Definition tiktok_path_id (parts : list string) : option string :=
  match Js.index_of "video" parts with
  | None => None
  | Some videoIndex =>
      match Js.keep_truthy (nth_error parts (S videoIndex)) with
      | None => None
      | Some videoId => if Js.digits_only videoId then Some videoId else None
      end
  end.

Section Classifier.

Context {api : UrlApi}.

Definition getYouTubeId (url : string) : option string :=
  match new_URL (Js.trim url) with
  | None => None
  | Some u =>
      let host := host_of u in
      if String.eqb host "youtu.be" then
        Js.keep_truthy (head (path_parts u))
      else if Js.includes "youtube.com" host then
        match Js.keep_truthy (searchParams_get "v" (searchParams u)) with
        | Some v => Some v
        | None => youtube_path_id (path_parts u)
        end
      else None
  end.

Definition getTikTokId (url : string) : option string :=
  match new_URL (Js.trim url) with
  | None => None
  | Some u =>
      let host := host_of u in
      if String.eqb host "tiktok.com" || String.eqb host "m.tiktok.com" then
        tiktok_path_id (path_parts u)
      else None
  end.

Definition getVideoInfo (url : string) : option (VideoPlatform * string) :=
  match Js.keep_truthy (getYouTubeId url) with
  | Some youtubeId => Some (youtube, youtubeId)
  | None =>
      match Js.keep_truthy (getTikTokId url) with
      | Some tiktokId => Some (tiktok, tiktokId)
      | None => None
      end
  end.

(** routes.ts: the predicate inside [isTikTokShortUrl]. *)
Definition short_link (u : Url) : bool :=
  let host := host_of u in
  String.eqb host "vm.tiktok.com" ||
  (String.eqb host "tiktok.com" && Js.starts_with "/t/" (pathname u)).

Definition isTikTokShortUrl (url : string) : bool :=
  match new_URL url with
  | None => false
  | Some u => short_link u
  end.

End Classifier.

(** ** shared/schema.ts: the record shapes *)

Record VoiceRecording := mkVoiceRecording {
  recordedAt : string;
  duration : float;
  audioData : option string
}.

Record VideoProgress := mkVideoProgress {
  watched : bool;
  watchedAt : option string;
  voiceRecording : option VoiceRecording;        (* the legacy single recording *)
  voiceRecordings : option (list VoiceRecording);
  parentReviewed : option bool;
  lastPosition : option float;
  videoDuration : option float;
  dailyWatchTime : option (gmap string float)
}.

(** The object literal [{ watched: false }]. *)
Definition unwatched : VideoProgress :=
  mkVideoProgress false None None None None None None None.

Module Kid.
Record t := mk { id : string; name : string; avatar : string }.
(** A row of [kidsTable]: the public shape and its owner. *)
Record row := mkRow { userId : string; kid : t }.
End Kid.

Module Folder.
Record t := mk { id : string; name : string }.
Record row := mkRow { userId : string; folder : t }.
End Folder.

Module Video.
Record t := mk {
  id : string;
  url : string;
  ytId : string;
  platform : VideoPlatform;
  folderId : option string;
  priority : Z;
  assigned : gmap string bool;
  progress : gmap string VideoProgress;
  totalViews : Z
}.
Record row := mkRow { userId : string; video : t }.

Definition set_progress (p : gmap string VideoProgress) (v : t) : t :=
  mk (id v) (url v) (ytId v) (platform v) (folderId v) (priority v)
     (assigned v) p (totalViews v).
Definition set_totalViews (n : Z) (v : t) : t :=
  mk (id v) (url v) (ytId v) (platform v) (folderId v) (priority v)
     (assigned v) (progress v) n.
Definition set_folderId (f : option string) (v : t) : t :=
  mk (id v) (url v) (ytId v) (platform v) f (priority v)
     (assigned v) (progress v) (totalViews v).
End Video.

Module Subscription.
Record row := mkRow {
  id : string;
  userId : string;
  masterFolderId : string;
  kidIds : list string;
  createdAt : option string
}.
End Subscription.

(** ** The database *)

Record Db := mkDb {
  kidsTable : list Kid.row;
  foldersTable : list Folder.row;
  videosTable : list Video.row;
  globalSubscriptionsTable : list Subscription.row
}.

Definition set_kids (ks : list Kid.row) (db : Db) : Db :=
  mkDb ks (foldersTable db) (videosTable db) (globalSubscriptionsTable db).
Definition set_folders (fs : list Folder.row) (db : Db) : Db :=
  mkDb (kidsTable db) fs (videosTable db) (globalSubscriptionsTable db).
Definition set_videos (vs : list Video.row) (db : Db) : Db :=
  mkDb (kidsTable db) (foldersTable db) vs (globalSubscriptionsTable db).

(** [db.update(t).set(f).where(P)]: every row that satisfies [P] is
    rewritten by [f], the others are kept. The rewritten row stays where it
    was in the list; the store may return it elsewhere in a later [select],
    so what is stated of the rows of an owner after an update is stated up
    to their order. *)
Definition update_where {A} (P : A -> Prop) `{forall x, Decision (P x)}
    (f : A -> A) (rows : list A) : list A :=
  (fun r => if decide (P r) then f r else r) <$> rows.

(** [db.delete(t).where(P)] *)
Definition delete_where {A} (P : A -> Prop) `{forall x, Decision (P x)}
    (rows : list A) : list A :=
  filter (fun r => ~ P r) rows.

(** What a storage method that answers [{ video, error }] returns. *)
Inductive Outcome (A : Type) : Type :=
| Done (video : A)
| Rejected (error : string).
Arguments Done {A} video.
Arguments Rejected {A} error.

(** What a storage method gives back when a statement of its can be
    refused by the store: the value it returns, or the exception it lets
    through. *)
Inductive Attempt (A : Type) : Type :=
| Returned (value : A)
| Threw.
Arguments Returned {A} value.
Arguments Threw {A}.

(** What an Express handler sends back. *)
Inductive Response (A : Type) : Type :=
| send (status : Z)                       (* res.status(n).send() *)
| json (status : Z) (payload : A)         (* res.status(n).json(payload) *)
| error (status : Z) (message : string).  (* res.status(n).json({ error }) *)
Arguments send {A} status.
Arguments json {A} status payload.
Arguments error {A} status message.

(** ** server/storage.ts: [DatabaseStorage] *)

Definition getKids (userId : string) (db : Db) : list Kid.t :=
  Kid.kid <$> filter (fun r => Kid.userId r = userId) (kidsTable db).

Definition getKid (id userId : string) (db : Db) : option Kid.t :=
  Kid.kid <$>
    head (filter (fun r => Kid.id (Kid.kid r) = id /\ Kid.userId r = userId)
                 (kidsTable db)).

Definition deleteKid (id userId : string) (db : Db) : Db * bool :=
  (set_kids
     (delete_where (fun r => Kid.id (Kid.kid r) = id /\ Kid.userId r = userId)
                   (kidsTable db)) db,
   true).

Definition getFolder (id userId : string) (db : Db) : option Folder.t :=
  Folder.folder <$>
    head (filter (fun r => Folder.id (Folder.folder r) = id /\ Folder.userId r = userId)
                 (foldersTable db)).

(** [updates] is the [Partial<InsertFolder>] argument: an optional name. The
    column [name] is a [text], which the store refuses when it holds a NUL
    character; the exception of the refused statement is not caught here. *)
Definition updateFolder (id userId : string) (updates : option string) (db : Db)
  : Db * Attempt (option Folder.t) :=
  match getFolder id userId db with
  | None => (db, Returned None)
  | Some existing =>
      let updated := Folder.mk (Folder.id existing)
                               (default (Folder.name existing) updates) in
      if Js.storable (Folder.name updated) then
        (set_folders
           (update_where
              (fun r => Folder.id (Folder.folder r) = id /\ Folder.userId r = userId)
              (fun r => Folder.mkRow (Folder.userId r)
                          (Folder.mk (Folder.id (Folder.folder r)) (Folder.name updated)))
              (foldersTable db)) db,
         Returned (Some updated))
      else (db, Threw)
  end.

Definition deleteFolder (id userId : string) (db : Db) : Db * bool :=
  let db1 :=
    set_videos
      (update_where
         (fun r => Video.folderId (Video.video r) = Some id /\ Video.userId r = userId)
         (fun r => Video.mkRow (Video.userId r) (Video.set_folderId None (Video.video r)))
         (videosTable db)) db in
  (set_folders
     (delete_where
        (fun r => Folder.id (Folder.folder r) = id /\ Folder.userId r = userId)
        (foldersTable db1)) db1,
   true).

Definition getVideos (userId : string) (db : Db) : list Video.t :=
  Video.video <$> filter (fun r => Video.userId r = userId) (videosTable db).

Definition getVideo (id userId : string) (db : Db) : option Video.t :=
  Video.video <$>
    head (filter (fun r => Video.id (Video.video r) = id /\ Video.userId r = userId)
                 (videosTable db)).

Definition deleteVideo (id userId : string) (db : Db) : Db * bool :=
  (set_videos
     (delete_where (fun r => Video.id (Video.video r) = id /\ Video.userId r = userId)
                   (videosTable db)) db,
   true).

(** The kids a new video is given to: the listed ones that exist, or all of
    them when no list (or an empty one) is passed. *)
Definition target_kids (kidIds : list string) (allKids : list Kid.t) : list Kid.t :=
  if (0 <? Z.of_nat (length kidIds))
  then filter (fun k => Kid.id k ∈ kidIds) allKids
  else allKids.

(** The loop [for (const kid of targetKids) { assigned[kid.id] = true;
    progress[kid.id] = { watched: false }; }] *)
Definition assign_all (targetKids : list Kid.t) : gmap string bool :=
  fold_left (fun m k => <[Kid.id k := true]> m) targetKids ∅.
Definition progress_all (targetKids : list Kid.t) : gmap string VideoProgress :=
  fold_left (fun m k => <[Kid.id k := unwatched]> m) targetKids ∅.

Definition already_added : string :=
  "This video has already been added to your library.".
Definition invalid_url : string :=
  "Invalid video URL. Please paste a valid YouTube or TikTok link.".
Definition views_exhausted : string :=
  "This video has reached the maximum number of views (4)".

Section CreateVideo.

Context {api : UrlApi}.

(** [tag] stands for [`${Date.now()}_${randomUUID().slice(0, 8)}`]. *)
Definition createVideo (tag : string) (url : string) (kidIds : option (list string))
    (allKids : list Kid.t) (userId : string) (folderId : option string)
    (priority : option Z) (db : Db) : Db * Outcome Video.t :=
  match getVideoInfo url with
  | None => (db, Rejected invalid_url)
  | Some (platform, videoId) =>
      let existing :=
        filter (fun r => Video.ytId (Video.video r) = videoId /\ Video.userId r = userId)
               (videosTable db) in
      if 0 <? Z.of_nat (length existing) then (db, Rejected already_added)
      else
        let id := String.append "vid_" tag in
        let targetKids := target_kids (default [] kidIds) allKids in
        let videoPriority := default VIDEO_PRIORITY_DEFAULT priority in
        let video :=
          Video.mk id url videoId platform (Js.keep_truthy folderId) videoPriority
                   (assign_all targetKids) (progress_all targetKids) 0 in
        (set_videos (videosTable db ++ [Video.mkRow userId video])%list db, Done video)
  end.

End CreateVideo.

(** The recordings kept from the previous entry: the stored list, preceded
    by the legacy single recording when the list is empty. *)
Definition migrated_recordings (prev : option VideoProgress) : list VoiceRecording :=
  let existingRecordings := default [] (prev ≫= voiceRecordings) in
  match prev ≫= voiceRecording with
  | Some legacySingle =>
      if (Z.of_nat (length existingRecordings) =? 0)
      then (existingRecordings ++ [legacySingle])%list
      else existingRecordings
  | None => existingRecordings
  end.

(** [now] is [new Date().toISOString()]. *)
Definition markVideoWatched (now : string) (videoId kidId : string)
    (recording : VoiceRecording) (userId : string) (db : Db)
  : Db * Outcome Video.t :=
  match getVideo videoId userId db with
  | None => (db, Rejected "Video not found")
  | Some video =>
      let prev := Video.progress video !! kidId in
      let alreadyWatched := default false (watched <$> prev) in
      if negb alreadyWatched && (MAX_VIDEO_VIEWS <=? Video.totalViews video)
      then (db, Rejected views_exhausted)
      else
        let existingRecordings := (migrated_recordings prev ++ [recording])%list in
        let entry :=
          {| watched := true;
             watchedAt := Some (Js.str_or (prev ≫= watchedAt) now);
             voiceRecording := None;
             voiceRecordings := Some existingRecordings;
             parentReviewed := Some false;
             lastPosition := None;
             videoDuration := None;
             dailyWatchTime := None |} in
        let progress := Js.assign kidId entry (Video.progress video) in
        let totalViews :=
          if alreadyWatched then Video.totalViews video
          else Video.totalViews video + 1 in
        let video' := Video.set_totalViews totalViews (Video.set_progress progress video) in
        (set_videos
           (update_where
              (fun r => Video.id (Video.video r) = videoId /\ Video.userId r = userId)
              (fun r => Video.mkRow (Video.userId r)
                          (Video.set_totalViews totalViews
                             (Video.set_progress progress (Video.video r))))
              (videosTable db)) db,
         Done video')
  end.

Definition set_dailyWatchTime (d : gmap string float) (p : VideoProgress) : VideoProgress :=
  mkVideoProgress (watched p) (watchedAt p) (voiceRecording p) (voiceRecordings p)
                  (parentReviewed p) (lastPosition p) (videoDuration p) (Some d).
(** The two numbers are given as the column returns them: [None] for
    [null]. *)
Definition set_lastPosition (x : option float) (p : VideoProgress) : VideoProgress :=
  mkVideoProgress (watched p) (watchedAt p) (voiceRecording p) (voiceRecordings p)
                  (parentReviewed p) x (videoDuration p) (dailyWatchTime p).
Definition set_videoDuration (x : option float) (p : VideoProgress) : VideoProgress :=
  mkVideoProgress (watched p) (watchedAt p) (voiceRecording p) (voiceRecordings p)
                  (parentReviewed p) (lastPosition p) x (dailyWatchTime p).

(** [Math.max(0, position - prevPosition)] *)
Definition position_increment (position : float) (p : VideoProgress) : float :=
  Js.math_max 0%float (PrimFloat.sub position (Js.num_or_zero (lastPosition p))).

(** [increment > 0 && increment < 30] *)
Definition counts_as_playback (increment : float) : bool :=
  PrimFloat.ltb 0%float increment && PrimFloat.ltb increment 30%float.

(** [duration && duration > 0] on the optional argument. *)
Definition positive_duration (duration : option float) : option float :=
  match duration with
  | Some d => if Js.num_truthy d && PrimFloat.ltb 0%float d then Some d else None
  | None => None
  end.

(** The entry [saveVideoPosition] stores for the kid, from the entry found.
    The position and the duration are written into the [jsonb] column, which
    keeps [null] for a number that is not finite. The bucket of the day is
    the sum of a number read from the column, or 0, and an increment below
    30. *)
Definition position_entry (now : string) (position : float) (duration : option float)
    (p : VideoProgress) : VideoProgress :=
  let increment := position_increment position p in
  let p1 :=
    if counts_as_playback increment then
      let today := String.substring 0 10 now in
      let daily := default ∅ (dailyWatchTime p) in
      set_dailyWatchTime
        (<[today := PrimFloat.add (Js.num_or_zero (daily !! today)) increment]> daily) p
    else p in
  let p2 := set_lastPosition (Js.json_number position) p1 in
  match positive_duration duration with
  | Some d => set_videoDuration (Js.json_number d) p2
  | None => p2
  end.

(** The video is selected by id and owner and written back by id alone. For
    a [kidId] that is a property name of [Object.prototype] and has no entry
    in [progress], the code finds the object of the runtime under
    [progress[kidId]] and reads and writes that object; what reaches the
    database is as below, the object itself is no part of this model, and
    the statements about [saveVideoPosition] are about the other ids. *)
Definition saveVideoPosition (now : string) (videoId kidId : string) (position : float)
    (userId : string) (duration : option float) (db : Db) : Db * bool :=
  match filter (fun r => Video.id (Video.video r) = videoId /\ Video.userId r = userId)
               (videosTable db) with
  | [] => (db, false)
  | video :: _ =>
      let progress := Video.progress (Video.video video) in
      let entry := position_entry now position duration
                     (default unwatched (progress !! kidId)) in
      let progress' := Js.assign kidId entry progress in
      (set_videos
         (update_where (fun r => Video.id (Video.video r) = videoId)
            (fun r => Video.mkRow (Video.userId r)
                        (Video.set_progress progress' (Video.video r)))
            (videosTable db)) db,
       true)
  end.

Definition getGlobalVideos (masterUserId folderId : string) (db : Db) : list Video.t :=
  Video.video <$>
    filter (fun r => Video.userId r = masterUserId /\
                     Video.folderId (Video.video r) = Some folderId)
           (videosTable db).

(** The row [syncSubscription] inserts for the master video [mv]; [tag]
    stands for [`${Date.now()}_${randomUUID().slice(0, 8)}`]. *)
Definition shadow_copy (tag : string) (userId localFolderId : string)
    (targetKids : list Kid.t) (mv : Video.t) : Video.row :=
  Video.mkRow userId
    (Video.mk (String.append "vid_" (String.append tag "_g"))
              (Video.url mv) (Video.ytId mv) (Video.platform mv)
              (Some localFolderId) (Video.priority mv)
              (assign_all targetKids) (progress_all targetKids) 0).

(** The loop over [masterVideos]; [tag i] is the tag drawn in iteration [i].
    [existingYtIds] is computed once, before the loop. *)
Fixpoint sync_loop (tag : nat -> string) (i : nat) (userId localFolderId : string)
    (targetKids : list Kid.t) (existingYtIds : gset string)
    (masterVideos : list Video.t) (db : Db) : Db :=
  match masterVideos with
  | [] => db
  | mv :: rest =>
      if decide (Video.ytId mv ∈ existingYtIds)
      then sync_loop tag (S i) userId localFolderId targetKids existingYtIds rest db
      else sync_loop tag (S i) userId localFolderId targetKids existingYtIds rest
             (set_videos
                (videosTable db ++
                 [shadow_copy (tag i) userId localFolderId targetKids mv])%list db)
  end.

Definition shadow_name (masterFolderId : string) : string :=
  String.append "__global_" masterFolderId.

(** The subscriber's shadow folder: the first folder of that name, or a new
    one. *)
Definition ensure_shadow_folder (folderTag : string) (userId masterFolderId : string)
    (db : Db) : string * Db :=
  let localFolderName := shadow_name masterFolderId in
  match filter (fun r => Folder.userId r = userId /\
                         Folder.name (Folder.folder r) = localFolderName)
               (foldersTable db) with
  | [] =>
      let localFolderId := String.append "folder_" folderTag in
      (localFolderId,
       set_folders
         (foldersTable db ++
          [Folder.mkRow userId (Folder.mk localFolderId localFolderName)])%list db)
  | r :: _ => (Folder.id (Folder.folder r), db)
  end.

Definition syncSubscription (folderTag : string) (tag : nat -> string)
    (userId masterFolderId masterUserId : string) (db : Db) : Db :=
  match filter (fun s => Subscription.userId s = userId /\
                         Subscription.masterFolderId s = masterFolderId)
               (globalSubscriptionsTable db) with
  | [] => db
  | sub :: _ =>
      let targetKids := target_kids (Subscription.kidIds sub) (getKids userId db) in
      match filter (fun r => Folder.id (Folder.folder r) = masterFolderId /\
                             Folder.userId r = masterUserId)
                   (foldersTable db) with
      | [] => db
      | _ :: _ =>
          let '(localFolderId, db1) :=
            ensure_shadow_folder folderTag userId masterFolderId db in
          let masterVideos := getGlobalVideos masterUserId masterFolderId db1 in
          let existingLocal :=
            filter (fun r => Video.userId r = userId /\
                             Video.folderId (Video.video r) = Some localFolderId)
                   (videosTable db1) in
          let existingYtIds : gset string :=
            list_to_set ((fun r => Video.ytId (Video.video r)) <$> existingLocal) in
          sync_loop tag 0 userId localFolderId targetKids existingYtIds masterVideos db1
      end
  end.

(** ** server/routes.ts: the handlers in front of the storage *)

(** A field of a JSON request body that the handler expects to be a string. *)
Inductive BodyField := Missing | Text (s : string) | NotText.

Definition name_required : string := "Name is required".

(** [DELETE /api/kids/:id] *)
Definition delete_kid_route (id userId : string) (db : Db) : Db * Response unit :=
  let '(db', deleted) := deleteKid id userId db in
  if negb deleted then (db', error 404 "Kid not found") else (db', send 204).

(** [DELETE /api/videos/:id] *)
Definition delete_video_route (id userId : string) (db : Db) : Db * Response unit :=
  let '(db', deleted) := deleteVideo id userId db in
  if negb deleted then (db', error 404 "Video not found") else (db', send 204).

(** [DELETE /api/folders/:id] *)
Definition delete_folder_route (id userId : string) (db : Db) : Db * Response unit :=
  (fst (deleteFolder id userId db), send 204).

(** [PATCH /api/folders/:id]; the handler answers 500 to whatever the
    storage throws. *)
Definition patch_folder_route (id userId : string) (name : BodyField) (db : Db)
  : Db * Response Folder.t :=
  match name with
  | Text s =>
      if negb (Js.truthy s) || (String.length (Js.trim s) =? 0)%nat
      then (db, error 400 name_required)
      else match updateFolder id userId (Some (Js.trim s)) db with
           | (db', Returned None) => (db', error 404 "Folder not found")
           | (db', Returned (Some folder)) => (db', json 200 folder)
           | (db', Threw) => (db', error 500 "Failed to update folder")
           end
  | _ => (db, error 400 name_required)
  end.


(** ** A reference implementation of the [URL] interface

    It covers the URLs the classifier documents: an [http] or [https] scheme,
    a plain ASCII host without credentials or port, and a path and a query
    without escapes or dot segments. It declines everything else, and it is
    used to run the classifier on concrete links; the theorems on the
    classifier hold for every implementation of the interface. *)

Module SimpleUrl.

(** [(before, from)]: [s] cut at its first character that satisfies [p]. *)
Fixpoint break (p : ascii -> bool) (s : string) : string * string :=
  match s with
  | EmptyString => (EmptyString, EmptyString)
  | String c s' =>
      if p c then (EmptyString, s)
      else let '(a, b) := break p s' in (String c a, b)
  end.

Fixpoint all_chars (p : ascii -> bool) (s : string) : bool :=
  match s with
  | EmptyString => true
  | String c s' => p c && all_chars p s'
  end.

Definition is_alnum (c : ascii) : bool :=
  let n := nat_of_ascii c in
  (Nat.leb 48 n && Nat.leb n 57) || (Nat.leb 65 n && Nat.leb n 90) ||
  (Nat.leb 97 n && Nat.leb n 122).

Definition one_of (cs : string) (c : ascii) : bool :=
  existsb (Ascii.eqb c) (list_ascii_of_string cs).

Definition host_char (c : ascii) : bool := is_alnum c || one_of ".-" c.
Definition path_char (c : ascii) : bool := is_alnum c || one_of "/@._~-" c.
Definition query_char (c : ascii) : bool := is_alnum c || one_of "=&._~-" c.

Definition strip_scheme (s : string) : option string :=
  if Js.starts_with "https://" (Js.to_lower s) then Some (Js.drop 8 s)
  else if Js.starts_with "http://" (Js.to_lower s) then Some (Js.drop 7 s)
  else None.

Definition key_value (piece : string) : string * string :=
  let '(k, rest) := break (Ascii.eqb "=") piece in (k, Js.drop 1 rest).

Definition parse_query (q : string) : list (string * string) :=
  key_value <$> Js.filter_Boolean (Js.split "&" q).

Definition dot_segment (seg : string) : bool :=
  String.eqb seg "." || String.eqb seg "..".

Definition parse (s : string) : option Url :=
  match strip_scheme (Js.trim s) with
  | None => None
  | Some rest =>
      let '(host, tail) := break (one_of "/?#") rest in
      let '(path, tail') := break (one_of "?#") tail in
      let '(query, _) :=
        break (Ascii.eqb "#")
              (if Js.starts_with "?" tail' then Js.drop 1 tail' else EmptyString) in
      if Js.truthy host && all_chars host_char host
         && all_chars path_char path
         && negb (existsb dot_segment (Js.split "/" path))
         && all_chars query_char query
      then Some (mkUrl (Js.to_lower host)
                       (if Js.truthy path then path else "/")
                       (parse_query query))
      else None
  end.

End SimpleUrl.

#[global] Instance simple_url_api : UrlApi := SimpleUrl.parse.

(** ** server/storage.ts: kids, badges and video updates *)

Definition video_set_assigned (a : gmap string bool) (v : Video.t) : Video.t :=
  Video.mk (Video.id v) (Video.url v) (Video.ytId v) (Video.platform v)
           (Video.folderId v) (Video.priority v) a (Video.progress v)
           (Video.totalViews v).
Definition video_set_priority (n : Z) (v : Video.t) : Video.t :=
  Video.mk (Video.id v) (Video.url v) (Video.ytId v) (Video.platform v)
           (Video.folderId v) n (Video.assigned v) (Video.progress v)
           (Video.totalViews v).
Definition set_parentReviewed (b : bool) (p : VideoProgress) : VideoProgress :=
  mkVideoProgress (watched p) (watchedAt p) (voiceRecording p) (voiceRecordings p)
                  (Some b) (lastPosition p) (videoDuration p) (dailyWatchTime p).
Definition set_subscriptions (ss : list Subscription.row) (db : Db) : Db :=
  mkDb (kidsTable db) (foldersTable db) (videosTable db) ss.

(** One turn of the loop of [createKid]: the video read at the start of the
    loop, with the new kid added, is written to every row with its id. *)
Definition assign_new_kid (id : string) (db : Db) (video : Video.t) : Db :=
  set_videos
    (update_where (fun r => Video.id (Video.video r) = Video.id video)
       (fun r => Video.mkRow (Video.userId r)
                   (Video.set_progress (<[id := unwatched]> (Video.progress video))
                      (video_set_assigned (<[id := true]> (Video.assigned video))
                         (Video.video r))))
       (videosTable db)) db.

(** [tag] stands for [`${Date.now()}_${randomUUID().slice(0, 8)}`]. *)
Definition createKid (tag : string) (name avatar : string) (userId : string) (db : Db)
  : Db * Kid.t :=
  let id := String.append "kid_" tag in
  let kid := Kid.mk id name avatar in
  let db1 := set_kids (kidsTable db ++ [Kid.mkRow userId kid])%list db in
  let allVideos := getVideos userId db1 in
  (fold_left (assign_new_kid id) allVideos db1, kid).

(** [updates] is the [Partial<InsertKid>] argument: an optional name and an
    optional avatar. *)
Definition updateKid (id userId : string) (name avatar : option string) (db : Db)
  : Db * option Kid.t :=
  match getKid id userId db with
  | None => (db, None)
  | Some existing =>
      let updated := Kid.mk (Kid.id existing) (default (Kid.name existing) name)
                            (default (Kid.avatar existing) avatar) in
      (set_kids
         (update_where
            (fun r => Kid.id (Kid.kid r) = id /\ Kid.userId r = userId)
            (fun r => Kid.mkRow (Kid.userId r)
                        (Kid.mk (Kid.id (Kid.kid r)) (Kid.name updated)
                                (Kid.avatar updated)))
            (kidsTable db)) db,
       Some updated)
  end.

Definition createFolder (tag : string) (name : string) (userId : string) (db : Db)
  : Db * Folder.t :=
  let folder := Folder.mk (String.append "folder_" tag) name in
  (set_folders (foldersTable db ++ [Folder.mkRow userId folder])%list db, folder).

(** The values the store takes for the columns [priority], an [integer],
    and [folder_id], a [varchar(64)], out of the updates of [updateVideo];
    [None] when it refuses one of them, and with it the whole statement. *)
Definition video_columns (priority : option float) (folderId : option (option string))
  : option (option Z * option (option string)) :=
  let fits :=
    match folderId with
    | Some (Some f) => Js.varchar64 f
    | _ => true
    end in
  match priority with
  | None => if fits then Some (None, folderId) else None
  | Some x =>
      match Js.int4 x with
      | Some n => if fits then Some (Some n, folderId) else None
      | None => None
      end
  end.

(** [updates.priority] is absent or a number; [updates.folderId] is absent,
    [null] or a string. The video is looked up first; the statement is
    issued when a field is present, and the exception of a refused
    statement is not caught here. *)
Definition updateVideo (id userId : string) (priority : option float)
    (folderId : option (option string)) (db : Db) : Db * Attempt (option Video.t) :=
  match getVideo id userId db with
  | None => (db, Returned None)
  | Some _ =>
      match priority, folderId with
      | None, None => (db, Returned (getVideo id userId db))
      | _, _ =>
          match video_columns priority folderId with
          | None => (db, Threw)
          | Some (p, f) =>
              let db' :=
                set_videos
                  (update_where
                     (fun r => Video.id (Video.video r) = id /\ Video.userId r = userId)
                     (fun r =>
                        let v1 := from_option
                                    (fun n => video_set_priority n (Video.video r))
                                    (Video.video r) p in
                        Video.mkRow (Video.userId r)
                          (from_option (fun x => Video.set_folderId x v1) v1 f))
                     (videosTable db)) db in
              (db', Returned (getVideo id userId db'))
          end
      end
  end.

(** [video.assigned?.[kidId] && !video.progress?.[kidId]?.watched], for a
    kid id that is no property name of [Object.prototype], as is every id
    that [createKid] draws: the two reads then find what the objects own.
    Under a name of [Js.inherited_names] that [assigned] does not own, the
    first read finds an object of the runtime instead; the statements about
    the badge of a kid are about the other ids. *)
Definition awaits_kid (kidId : string) (video : Video.t) : bool :=
  default false (Video.assigned video !! kidId)
  && negb (default false (watched <$> Video.progress video !! kidId)).

Definition getBadgeCountForKid (kidId userId : string) (db : Db) : nat :=
  length (List.filter (awaits_kid kidId) (getVideos userId db)).

(** [prog?.watched && prog?.parentReviewed === false] *)
Definition unreviewed (prog : VideoProgress) : bool :=
  watched prog &&
  match parentReviewed prog with Some false => true | _ => false end.

(** The entries of one video the inner loop over [Object.keys] counts. *)
Definition unreviewed_count (progress : gmap string VideoProgress) : nat :=
  length (List.filter (fun kv => unreviewed (snd kv)) (map_to_list progress)).

Definition getBadgeCountForParent (userId : string) (db : Db) : nat :=
  sum_list ((fun video => unreviewed_count (Video.progress video))
              <$> getVideos userId db).

(** The inner loop of [clearParentBadge] on one video. *)
Definition mark_reviewed (progress : gmap string VideoProgress)
  : gmap string VideoProgress :=
  (fun prog => if unreviewed prog then set_parentReviewed true prog else prog)
    <$> progress.

(** One turn of the outer loop: the video is written back when an entry
    changed. *)
Definition clear_video (userId : string) (db : Db) (video : Video.t) : Db :=
  if (0 <? unreviewed_count (Video.progress video))%nat then
    set_videos
      (update_where
         (fun r => Video.id (Video.video r) = Video.id video /\ Video.userId r = userId)
         (fun r => Video.mkRow (Video.userId r)
                     (Video.set_progress (mark_reviewed (Video.progress video))
                        (Video.video r)))
         (videosTable db)) db
  else db.

Definition clearParentBadge (userId : string) (db : Db) : Db :=
  fold_left (clear_video userId) (getVideos userId db) db.


Definition markVideoWatchedPublic (now : string) (videoId kidId : string)
    (recording : VoiceRecording) (ownerUserId : string) (db : Db)
  : Db * Outcome Video.t :=
  markVideoWatched now videoId kidId recording ownerUserId db.

(** ** server/storage.ts: global playlists *)

Definition reserved_prefix : string := "__global_".

Definition getGlobalFolders (masterUserId : string) (db : Db) : list Folder.t :=
  Folder.folder <$>
    filter (fun r => Js.starts_with reserved_prefix (Folder.name (Folder.folder r)) = false)
           (filter (fun r => Folder.userId r = masterUserId) (foldersTable db)).

(** The grouped count ([select folderId, count ... group by folderId]) read
    into a [Map]: the number of selected rows per folder id. *)
Definition count_by_folder (rows : list Video.row) : gmap string nat :=
  fold_left
    (fun m r =>
       match Video.folderId (Video.video r) with
       | Some f => <[f := S (default O (m !! f))]> m
       | None => m
       end) rows ∅.

Definition getGlobalFoldersWithCounts (masterUserId : string) (db : Db)
  : list (Folder.t * nat) :=
  let folders := getGlobalFolders masterUserId db in
  if (length folders =? 0)%nat then []
  else
    let folderIds := Folder.id <$> folders in
    let countMap :=
      count_by_folder
        (filter (fun r => Video.userId r = masterUserId /\
                          Video.folderId (Video.video r) ∈ (Some <$> folderIds))
                (videosTable db)) in
    (fun f => (f, default O (countMap !! Folder.id f))) <$> folders.

Definition getSubscriptions (userId : string) (db : Db) : list Subscription.row :=
  filter (fun s => Subscription.userId s = userId) (globalSubscriptionsTable db).



(** The loop of [syncAllSubscriptions] from its [i]-th turn on; turn [i]
    draws [folderTag i] and [tag i j]. *)
Fixpoint sync_each (folderTag : nat -> string) (tag : nat -> nat -> string) (i : nat)
    (userId masterUserId : string) (subs : list Subscription.row) (db : Db) : Db :=
  match subs with
  | [] => db
  | sub :: rest =>
      sync_each folderTag tag (S i) userId masterUserId rest
        (syncSubscription (folderTag i) (tag i) userId
                          (Subscription.masterFolderId sub) masterUserId db)
  end.

Definition syncAllSubscriptions (folderTag : nat -> string) (tag : nat -> nat -> string)
    (userId masterUserId : string) (db : Db) : Db :=
  sync_each folderTag tag 0 userId masterUserId (getSubscriptions userId db) db.

(** One turn of the loop of [cleanupGlobalData]. *)
Definition drop_global_folder (userId : string) (db : Db) (gf : Folder.row) : Db :=
  let id := Folder.id (Folder.folder gf) in
  set_folders
    (delete_where (fun r => Folder.id (Folder.folder r) = id) (foldersTable db))
    (set_videos
       (delete_where (fun r => Video.userId r = userId /\
                               Video.folderId (Video.video r) = Some id)
                     (videosTable db)) db).

Definition cleanupGlobalData (userId : string) (db : Db) : Db :=
  let allFolders := filter (fun r => Folder.userId r = userId) (foldersTable db) in
  let globalFolders :=
    filter (fun r => Js.starts_with reserved_prefix (Folder.name (Folder.folder r)) = true)
           allFolders in
  let db1 := fold_left (drop_global_folder userId) globalFolders db in
  set_subscriptions
    (delete_where (fun s => Subscription.userId s = userId)
                  (globalSubscriptionsTable db1)) db1.

(** ** Notions the properties are stated with *)



(** The rows one run of the sync loop inserts, in order. *)
Fixpoint shadow_copies (tag : nat -> string) (i : nat) (userId localFolderId : string)
    (targetKids : list Kid.t) (existingYtIds : gset string)
    (masterVideos : list Video.t) : list Video.row :=
  match masterVideos with
  | [] => []
  | mv :: rest =>
      if decide (Video.ytId mv ∈ existingYtIds)
      then shadow_copies tag (S i) userId localFolderId targetKids existingYtIds rest
      else shadow_copy (tag i) userId localFolderId targetKids mv
           :: shadow_copies tag (S i) userId localFolderId targetKids existingYtIds rest
  end.

(** The videos in the subscriber's shadow folder for a master folder. *)
Definition shadow_videos (userId masterFolderId : string) (db : Db) : list Video.t :=
  match filter (fun r => Folder.userId r = userId /\
                         Folder.name (Folder.folder r) = shadow_name masterFolderId)
               (foldersTable db) with
  | [] => []
  | r :: _ =>
      Video.video <$>
        filter (fun v => Video.userId v = userId /\
                         Video.folderId (Video.video v) = Some (Folder.id (Folder.folder r)))
               (videosTable db)
  end.

(** What one turn of [clearParentBadge] does to one row. *)
Definition clear_row (userId : string) (video : Video.t) (r : Video.row) : Video.row :=
  if (0 <? unreviewed_count (Video.progress video))%nat then
    if decide (Video.id (Video.video r) = Video.id video /\ Video.userId r = userId)
    then Video.mkRow (Video.userId r)
           (Video.set_progress (mark_reviewed (Video.progress video)) (Video.video r))
    else r
  else r.


(** Every video is within the view cap. *)
Definition views_capped (db : Db) : Prop :=
  forall r, r ∈ videosTable db -> Video.totalViews (Video.video r) <= MAX_VIDEO_VIEWS.

(** ** server/routes.ts: creating and renaming kids *)


(** [name.trim().toLowerCase()], the form in which kid names are compared. *)
Definition normal_name (name : string) : string := Js.to_lower (Js.trim name).

Definition double_quote : string := String (ascii_of_nat 34) EmptyString.

(** [`A kid named "${name}" already exists`] *)
Definition kid_exists (name : string) : string :=
  String.append "A kid named "
    (String.append double_quote
       (String.append name (String.append double_quote " already exists"))).


(** [PATCH /api/kids/:id] *)
Definition patch_kid_route (id userId : string) (name : BodyField) (db : Db)
  : Db * Response Kid.t :=
  match name with
  | Text s =>
      if negb (Js.truthy s) || (String.length (Js.trim s) =? 0)%nat
      then (db, error 400 name_required)
      else
        let kids := getKids userId db in
        if existsb (fun k => negb (String.eqb (Kid.id k) id)
                             && String.eqb (normal_name (Kid.name k)) (normal_name s))
                   kids
        then (db, error 400 (kid_exists (Js.trim s)))
        else match updateKid id userId (Some (Js.trim s)) None db with
             | (db', None) => (db', error 404 "Kid not found")
             | (db', Some kid) => (db', json 200 kid)
             end
  | _ => (db, error 400 name_required)
  end.


(** The kid names of an owner, as they are compared. *)
Definition kid_names (userId : string) (db : Db) : list string :=
  (fun k => normal_name (Kid.name k)) <$> getKids userId db.


(** Some sequence that [w1], [w2] or [w3] recognises stands at the front. *)
Definition space_ahead (w1 : ascii -> bool) (w2 : ascii -> ascii -> bool)
    (w3 : ascii -> ascii -> ascii -> bool) (l : list ascii) : bool :=
  match l with
  | [] => false
  | a :: l1 =>
      w1 a ||
      match l1 with
      | [] => false
      | b :: l2 => w2 a b || match l2 with [] => false | c :: _ => w3 a b c end
      end
  end.

(** The kid ids of an owner, in table order. *)
Definition kid_ids (userId : string) (db : Db) : list string :=
  Kid.id <$> getKids userId db.

Definition getFolders (userId : string) (db : Db) : list Folder.t :=
  Folder.folder <$> filter (fun r => Folder.userId r = userId) (foldersTable db).

(** Everything an owner can read of its own data. *)
Definition owner_view (userId : string) (db : Db)
  : list Kid.t * list Folder.t * list Video.t :=
  (getKids userId db, getFolders userId db, getVideos userId db).


(** The video taken out of the folder [id], when it was in it. *)
Definition unfiled (id : string) (v : Video.t) : Video.t :=
  if decide (Video.folderId v = Some id) then Video.set_folderId None v else v.

(** The kid ids a new video is given to, out of [allKids] and the requested
    ids. *)
Definition given_to (kidIds : list string) (allKids : list Kid.t) (k : string) : bool :=
  bool_decide (k ∈ Kid.id <$> allKids)
  && (bool_decide (kidIds = []) || bool_decide (k ∈ kidIds)).

(** ** server/routes.ts: listing the videos *)

(** [GET /api/videos]. [MASTER_USER_ID] is read from the environment (empty
    when unset); [masterCleanedUp] is the set the handler keeps in memory
    between requests. *)
Definition get_videos_route (MASTER_USER_ID : string) (folderTag : nat -> string)
    (tag : nat -> nat -> string) (userId : string)
    (state : gset string * Db) : (gset string * Db) * Response (list Video.t) :=
  let '(masterCleanedUp, db) := state in
  let '(masterCleanedUp1, db1) :=
    if Js.truthy MASTER_USER_ID && String.eqb userId MASTER_USER_ID
       && negb (bool_decide (userId ∈ masterCleanedUp))
    then (masterCleanedUp ∪ {[userId]}, cleanupGlobalData userId db)
    else (masterCleanedUp, db) in
  let db2 :=
    if Js.truthy MASTER_USER_ID && negb (String.eqb userId MASTER_USER_ID)
    then syncAllSubscriptions folderTag tag userId MASTER_USER_ID db1
    else db1 in
  ((masterCleanedUp1, db2), json 200 (getVideos userId db2)).

(** The playlist has nothing to copy for the subscriber: there is no
    subscription, or no such master folder, or the shadow folder holds a
    video for every id of the master folder. *)
Definition settled (userId masterUserId : string) (db : Db) (masterFolderId : string)
  : Prop :=
  filter (fun s => Subscription.userId s = userId /\
                   Subscription.masterFolderId s = masterFolderId)
         (globalSubscriptionsTable db) = [] \/
  filter (fun r => Folder.id (Folder.folder r) = masterFolderId /\
                   Folder.userId r = masterUserId)
         (foldersTable db) = [] \/
  exists r rest,
    filter (fun r => Folder.userId r = userId /\
                     Folder.name (Folder.folder r) = shadow_name masterFolderId)
           (foldersTable db) = r :: rest /\
    forall mv, mv ∈ getGlobalVideos masterUserId masterFolderId db ->
      Video.ytId mv ∈
        (fun v => Video.ytId (Video.video v)) <$>
          filter (fun v => Video.userId v = userId /\
                           Video.folderId (Video.video v)
                           = Some (Folder.id (Folder.folder r)))
                 (videosTable db).

(** ** server/routes.ts: the trial status *)

Record TrialStatus := mkTrialStatus { daysLeft : Z; show : bool; frozen : bool }.

Definition msPerDay : Z := 1000 * 60 * 60 * 24.
Definition totalTrialDays : Z := 30.

(** [GET /api/trial-status]. [createdAt] is the creation time of the account
    in milliseconds, absent when the account or its creation time is
    missing; [now] is the current time in milliseconds. Both are whole
    numbers far below 2^53, on which the arithmetic of doubles is exact. *)
Definition trial_status (createdAt : option Z) (now : Z) : TrialStatus :=
  match createdAt with
  | None => mkTrialStatus 30 false false
  | Some trialStart =>
      let daysSinceStart := (now - trialStart) / msPerDay in
      mkTrialStatus (Z.max 0 (totalTrialDays - daysSinceStart))
                    (daysSinceStart <=? totalTrialDays)
                    ((15 <=? daysSinceStart) && (daysSinceStart <=? totalTrialDays))
  end.

(** The video [markVideoWatched] stores for a kid, from the video it read. *)
Definition completed (now kidId : string) (recording : VoiceRecording) (video : Video.t)
  : Video.t :=
  let prev := Video.progress video !! kidId in
  Video.set_totalViews
    (if default false (watched <$> prev) then Video.totalViews video
     else Video.totalViews video + 1)
    (Video.set_progress
       (Js.assign kidId
          {| watched := true;
             watchedAt := Some (Js.str_or (prev ≫= watchedAt) now);
             voiceRecording := None;
             voiceRecordings := Some (migrated_recordings prev ++ [recording])%list;
             parentReviewed := Some false;
             lastPosition := None;
             videoDuration := None;
             dailyWatchTime := None |} (Video.progress video)) video).

(** ** server/routes.ts: the public kid pages *)




(** ** A small family library, used to run the operations *)

Module Sample.

Definition parent : string := "user_parent".
Definition master : string := "user_master".
Definition noon : string := "2026-02-03T12:00:00.000Z".

Definition clip (seconds : float) : VoiceRecording :=
  mkVoiceRecording "2026-02-01T09:00:00.000Z" seconds None.

(** An entry as [markVideoWatched] leaves it. *)
Definition seen (recordings : list VoiceRecording) : VideoProgress :=
  mkVideoProgress true (Some "2026-02-01T09:00:05.000Z") None (Some recordings)
                  (Some false) None None None.

(** An entry written before recordings were kept in a list. *)
Definition seen_legacy : VideoProgress :=
  mkVideoProgress true None (Some (clip 4)) None None None None None.

Definition everyone : gmap string bool :=
  list_to_map [("kid_a", true); ("kid_b", true)].

(** Four kids have completed it; [kid_b] has not. *)
Definition full_video : Video.t :=
  Video.mk "vid_full" "https://youtu.be/abc123" "abc123" youtube None 5
    (list_to_map [("kid_a", true); ("kid_b", true); ("kid_c", true);
                  ("kid_d", true); ("kid_e", true)])
    (list_to_map [("kid_a", seen [clip 3]); ("kid_b", unwatched);
                  ("kid_c", seen [clip 2]); ("kid_d", seen [clip 5]);
                  ("kid_e", seen [clip 1])])
    4.

Definition open_video : Video.t :=
  Video.mk "vid_open" "https://www.tiktok.com/@someone/video/123" "123" tiktok
    (Some "folder_p1") 5 everyone
    (list_to_map [("kid_a", seen [clip 3]);
                  ("kid_b", set_lastPosition (Some 10%float) unwatched)])
    1.

Definition legacy_video : Video.t :=
  Video.mk "vid_legacy" "https://youtu.be/old" "old" youtube None 5 everyone
    (list_to_map [("kid_a", seen_legacy); ("kid_b", unwatched)])
    1.

Definition master_video (n ytId : string) : Video.row :=
  Video.mkRow master
    (Video.mk n (String.append "https://youtu.be/" ytId) ytId youtube
              (Some "folder_m1") 3 ∅ ∅ 0).

Definition db : Db :=
  {| kidsTable :=
       [Kid.mkRow parent (Kid.mk "kid_a" "Ada" "girl");
        Kid.mkRow parent (Kid.mk "kid_b" "Ben" "boy")];
     foldersTable :=
       [Folder.mkRow parent (Folder.mk "folder_p1" "Science");
        Folder.mkRow master (Folder.mk "folder_m1" "Curated")];
     videosTable :=
       [Video.mkRow parent full_video;
        Video.mkRow parent open_video;
        Video.mkRow parent legacy_video;
        master_video "vid_m1" "m1";
        master_video "vid_m2" "m2"];
     globalSubscriptionsTable :=
       [Subscription.mkRow "gsub_1" parent "folder_m1" [] None] |}.

Definition tags (i : nat) : string :=
  String.append "1770000000000_" (String (ascii_of_nat (97 + i)) EmptyString).




Definition empty_db : Db := mkDb [] [] [] [].

Definition two_kids : list Kid.t := [Kid.mk "k1" "Ada" "girl"; Kid.mk "k2" "Ben" "boy"].

Definition tags2 (i j : nat) : string :=
  String.append "1770000000000_"
    (String (ascii_of_nat (97 + i)) (String (ascii_of_nat (97 + j)) EmptyString)).

Definition folder_tags (i : nat) : string :=
  String.append "1770000000000_f" (String (ascii_of_nat (97 + i)) EmptyString).

End Sample.

(** * Properties *)

(** ** The URL classifier *)

Lemma keep_truthy_Some o s : Js.keep_truthy o = Some s -> o = Some s /\ Js.truthy s = true.
Proof.
  destruct o as [t|]; simpl; [|discriminate].
  destruct (Js.truthy t) eqn:E; [|discriminate].
  intros [= ->]. auto.
Qed.

Lemma keep_truthy_id o :
  (forall s, o = Some s -> Js.truthy s = true) -> Js.keep_truthy o = o.
Proof.
  destruct o as [t|]; simpl; [|reflexivity].
  intros H. rewrite (H t eq_refl). reflexivity.
Qed.

Lemma youtube_path_id_truthy parts s :
  youtube_path_id parts = Some s -> Js.truthy s = true.
Proof.
  destruct parts as [|p0 [|p1 rest]]; simpl; try discriminate.
  destruct (String.eqb p0 "shorts"), (String.eqb p0 "embed"),
    (Js.truthy p1) eqn:E; simpl; try discriminate; intros [= <-]; exact E.
Qed.

Lemma tiktok_path_id_truthy parts s :
  tiktok_path_id parts = Some s -> Js.truthy s = true.
Proof.
  unfold tiktok_path_id.
  destruct (Js.index_of "video" parts) as [i|]; [|discriminate].
  destruct (Js.keep_truthy (nth_error parts (S i))) as [v|] eqn:E; [|discriminate].
  apply keep_truthy_Some in E as [_ E].
  destruct (Js.digits_only v); [|discriminate]. intros [= <-]. exact E.
Qed.

(** A path that is just [/t/<code>] has no video id to offer. *)
Lemma tiktok_path_id_code code : tiktok_path_id ["t"; code] = None.
Proof.
  unfold tiktok_path_id. simpl.
  destruct (String.eqb code "video"); reflexivity.
Qed.

Section ClassifierFacts.

Context {api : UrlApi}.

Lemma getYouTubeId_truthy url s : getYouTubeId url = Some s -> Js.truthy s = true.
Proof.
  unfold getYouTubeId.
  destruct (new_URL (Js.trim url)) as [u|]; [|discriminate]. simpl.
  destruct (String.eqb (host_of u) "youtu.be").
  - intros H. apply keep_truthy_Some in H. tauto.
  - destruct (Js.includes "youtube.com" (host_of u)); [|discriminate].
    destruct (Js.keep_truthy (searchParams_get "v" (searchParams u))) as [v|] eqn:E.
    + intros [= <-]. apply keep_truthy_Some in E. tauto.
    + apply youtube_path_id_truthy.
Qed.

Lemma getTikTokId_truthy url s : getTikTokId url = Some s -> Js.truthy s = true.
Proof.
  unfold getTikTokId.
  destruct (new_URL (Js.trim url)) as [u|]; [|discriminate]. simpl.
  destruct (String.eqb (host_of u) "tiktok.com" || String.eqb (host_of u) "m.tiktok.com");
    [|discriminate].
  apply tiktok_path_id_truthy.
Qed.

(** The two rule sets read the same host, and no host passes both tests. *)
Lemma youtube_tiktok_exclusive url :
  getYouTubeId url = None \/ getTikTokId url = None.
Proof.
  unfold getYouTubeId, getTikTokId.
  destruct (new_URL (Js.trim url)) as [u|]; [|left; reflexivity]. simpl.
  destruct (String.eqb (host_of u) "youtu.be") eqn:Eyt.
  { apply String.eqb_eq in Eyt. rewrite Eyt. right. reflexivity. }
  destruct (String.eqb (host_of u) "tiktok.com") eqn:E1.
  { apply String.eqb_eq in E1. rewrite E1. left. reflexivity. }
  destruct (String.eqb (host_of u) "m.tiktok.com") eqn:E2.
  { apply String.eqb_eq in E2. rewrite E2. left. reflexivity. }
  right. reflexivity.
Qed.

Lemma getVideoInfo_order url :
  getVideoInfo url =
  match getYouTubeId url with
  | Some youtubeId => Some (youtube, youtubeId)
  | None => option_map (pair tiktok) (getTikTokId url)
  end.
Proof.
  unfold getVideoInfo.
  rewrite (keep_truthy_id (getYouTubeId url)) by apply getYouTubeId_truthy.
  rewrite (keep_truthy_id (getTikTokId url)) by apply getTikTokId_truthy.
  destruct (getYouTubeId url); [reflexivity|].
  destruct (getTikTokId url); reflexivity.
Qed.

Lemma getVideoInfo_short_link url u :
  new_URL (Js.trim url) = Some u -> short_link u = true ->
  getVideoInfo url =
  if String.eqb (host_of u) "vm.tiktok.com" then None
  else option_map (pair tiktok) (tiktok_path_id (path_parts u)).
Proof.
  intros Hu Hs. rewrite getVideoInfo_order.
  unfold getYouTubeId, getTikTokId. rewrite Hu. simpl.
  unfold short_link in Hs. simpl in Hs.
  destruct (String.eqb (host_of u) "vm.tiktok.com") eqn:Evm.
  - apply String.eqb_eq in Evm. rewrite Evm. reflexivity.
  - simpl in Hs. apply andb_true_iff in Hs as [Hh _].
    apply String.eqb_eq in Hh. rewrite Hh. reflexivity.
Qed.

(** C9 (as amended): the classifier is a function of the string alone that
    answers none when the string does not parse; the YouTube rules are tried
    first and a YouTube match wins, then the TikTok rules, and no string
    matches both; a link whose host is [vm.tiktok.com] yields none, and a
    [tiktok.com/t/...] link yields exactly what the TikTok path rule finds in
    its path: none when the path is just [/t/<code>], and in general none
    unless the first [video] segment is followed by a numeric one. *)
Theorem getVideoInfo_classifier (url : string) :
  (new_URL (Js.trim url) = None -> getVideoInfo url = None) /\
  getVideoInfo url =
    match getYouTubeId url with
    | Some youtubeId => Some (youtube, youtubeId)
    | None => option_map (pair tiktok) (getTikTokId url)
    end /\
  (getYouTubeId url = None \/ getTikTokId url = None) /\
  (forall u, new_URL (Js.trim url) = Some u -> short_link u = true ->
     getVideoInfo url =
     if String.eqb (host_of u) "vm.tiktok.com" then None
     else option_map (pair tiktok) (tiktok_path_id (path_parts u))) /\
  (forall u code, new_URL (Js.trim url) = Some u -> short_link u = true ->
     path_parts u = ["t"; code] -> getVideoInfo url = None).
Proof.
  split; [|split; [|split; [|split]]].
  - intros Hnone. rewrite getVideoInfo_order.
    unfold getYouTubeId, getTikTokId. rewrite Hnone. reflexivity.
  - apply getVideoInfo_order.
  - apply youtube_tiktok_exclusive.
  - apply getVideoInfo_short_link.
  - intros u code Hu Hs Hparts.
    rewrite (getVideoInfo_short_link url u Hu Hs), Hparts.
    destruct (String.eqb (host_of u) "vm.tiktok.com"); [reflexivity|].
    rewrite tiktok_path_id_code. reflexivity.
Qed.

End ClassifierFacts.

(** The link shapes the classifier documents, run on the reference parser. *)

Example classify_youtu_be :
  getVideoInfo "https://youtu.be/abc123" = Some (youtube, "abc123").
Proof. reflexivity. Qed.

Example classify_watch :
  getVideoInfo "https://www.youtube.com/watch?v=dQw4w9WgXcQ&t=42"
  = Some (youtube, "dQw4w9WgXcQ").
Proof. reflexivity. Qed.

Example classify_shorts :
  getVideoInfo "https://youtube.com/shorts/a1B2c3" = Some (youtube, "a1B2c3").
Proof. reflexivity. Qed.

Example classify_embed :
  getVideoInfo "  https://m.youtube.com/embed/xyz  " = Some (youtube, "xyz").
Proof. reflexivity. Qed.

Example classify_tiktok :
  getVideoInfo "https://www.tiktok.com/@someone/video/7301234567890123456"
  = Some (tiktok, "7301234567890123456").
Proof. reflexivity. Qed.

Example classify_tiktok_mobile :
  getVideoInfo "https://m.tiktok.com/v/video/42" = Some (tiktok, "42").
Proof. reflexivity. Qed.

Example classify_tiktok_not_numeric :
  getVideoInfo "https://www.tiktok.com/@someone/video/12ab" = None.
Proof. reflexivity. Qed.

Example classify_vm_short_link :
  isTikTokShortUrl "https://vm.tiktok.com/ZMabcdef/" = true /\
  getVideoInfo "https://vm.tiktok.com/ZMabcdef/" = None.
Proof. split; reflexivity. Qed.

Example classify_t_short_link :
  isTikTokShortUrl "https://www.tiktok.com/t/ZTabcdef/" = true /\
  getVideoInfo "https://www.tiktok.com/t/ZTabcdef/" = None.
Proof. split; reflexivity. Qed.

Example classify_not_a_url : getVideoInfo "not a url" = None.
Proof. reflexivity. Qed.

Example classify_other_site : getVideoInfo "https://example.com/watch?v=1" = None.
Proof. reflexivity. Qed.

(** C9 (as stated) fails: a link under [tiktok.com/t/] is a short link for
    [isTikTokShortUrl], and the classifier still reads a video id off it. *)
Lemma short_link_classified :
  isTikTokShortUrl "https://www.tiktok.com/t/video/123" = true /\
  getVideoInfo "https://www.tiktok.com/t/video/123" = Some (tiktok, "123").
Proof. split; reflexivity. Qed.

(** ** Tables: selecting after an update *)

Section Tables.

Context {A : Type}.
Implicit Types (P Q : A -> Prop) (f : A -> A) (rows : list A).

Lemma update_where_cons Q `{!forall x, Decision (Q x)} f r rows :
  update_where Q f (r :: rows)
  = (if decide (Q r) then f r else r) :: update_where Q f rows.
Proof. reflexivity. Qed.

(** Selecting by [P] after an update that keeps [P] on every row finds the
    rows found before, rewritten. *)
Lemma filter_update_where P Q `{!forall x, Decision (P x)} `{!forall x, Decision (Q x)}
    f rows :
  (forall r, P (f r) <-> P r) ->
  filter P (update_where Q f rows)
  = (fun r => if decide (Q r) then f r else r) <$> filter P rows.
Proof.
  intros Hf. induction rows as [|r rows IH]; [reflexivity|].
  rewrite update_where_cons.
  destruct (decide (P r)) as [Hp|Hp].
  - rewrite (filter_cons_True P r rows Hp). rewrite fmap_cons.
    rewrite filter_cons_True.
    + rewrite IH. reflexivity.
    + destruct (decide (Q r)); [apply Hf|]; exact Hp.
  - rewrite (filter_cons_False P r rows Hp).
    rewrite filter_cons_False; [exact IH|].
    destruct (decide (Q r)); [rewrite Hf|]; exact Hp.
Qed.

Lemma head_filter_update_where P Q `{!forall x, Decision (P x)}
    `{!forall x, Decision (Q x)} f rows :
  (forall r, P (f r) <-> P r) ->
  head (filter P (update_where Q f rows))
  = (fun r => if decide (Q r) then f r else r) <$> head (filter P rows).
Proof.
  intros Hf. rewrite filter_update_where by exact Hf.
  destruct (filter P rows); reflexivity.
Qed.

Lemma head_filter_holds P `{!forall x, Decision (P x)} rows r :
  head (filter P rows) = Some r -> P r /\ r ∈ rows.
Proof.
  intros Hhead. assert (Hin : r ∈ filter P rows).
  { destruct (filter P rows) as [|r' l]; [discriminate|].
    injection Hhead as ->. apply list_elem_of_here. }
  apply list_elem_of_filter in Hin. exact Hin.
Qed.

(** A delete that matches no row keeps the table. *)
Lemma delete_where_none P `{!forall x, Decision (P x)} rows :
  filter P rows = [] -> delete_where P rows = rows.
Proof.
  unfold delete_where. induction rows as [|r rows IH]; [reflexivity|].
  destruct (decide (P r)) as [Hp|Hp].
  - rewrite (filter_cons_True P r rows Hp). discriminate.
  - rewrite (filter_cons_False P r rows Hp). intros Hnil.
    rewrite filter_cons_True by exact Hp. rewrite IH by exact Hnil. reflexivity.
Qed.

End Tables.

(** ** Marking a video watched *)

(** An assignment stores its value under every key but [__proto__], and
    under that one too when the object has a property of that name. *)
Lemma assign_own {V} k (v x : V) (obj : gmap string V) :
  obj !! k = Some x -> Js.assign k v obj = <[k := v]> obj.
Proof. unfold Js.assign. intros ->. reflexivity. Qed.

Lemma assign_stored {V} k (v : V) (obj : gmap string V) :
  k <> "__proto__" -> Js.assign k v obj = <[k := v]> obj.
Proof.
  unfold Js.assign. intros Hk. destruct (obj !! k); [reflexivity|].
  destruct (String.eqb_spec k "__proto__"); [contradiction | reflexivity].
Qed.


Lemma assign_lookup_ne {V} k k' (v : V) (obj : gmap string V) :
  k' <> k -> Js.assign k v obj !! k' = obj !! k'.
Proof.
  unfold Js.assign. intros Hne.
  destruct (obj !! k); [|destruct (String.eqb k "__proto__"); [reflexivity|]];
    apply lookup_insert_ne; congruence.
Qed.

Lemma getVideo_rewritten (g : Video.t -> Video.t) videoId userId db video :
  (forall v, Video.id (g v) = Video.id v) ->
  getVideo videoId userId db = Some video ->
  getVideo videoId userId
    (set_videos
       (update_where
          (fun r => Video.id (Video.video r) = videoId /\ Video.userId r = userId)
          (fun r => Video.mkRow (Video.userId r) (g (Video.video r)))
          (videosTable db)) db)
  = Some (g video).
Proof.
  intros Hg. unfold getVideo. simpl.
  rewrite head_filter_update_where by (intros r; simpl; rewrite Hg; tauto).
  destruct (head (filter _ (videosTable db))) as [r|] eqn:Hr; [|discriminate].
  apply head_filter_holds in Hr as [Hp _].
  simpl. intros [= <-]. rewrite decide_True by exact Hp. reflexivity.
Qed.

(** What a successful call stores, whatever the previous entry was. *)
Lemma markVideoWatched_accepts now videoId kidId recording userId db video :
  getVideo videoId userId db = Some video ->
  negb (default false (watched <$> Video.progress video !! kidId))
    && (MAX_VIDEO_VIEWS <=? Video.totalViews video) = false ->
  let prev := Video.progress video !! kidId in
  let entry :=
    {| watched := true;
       watchedAt := Some (Js.str_or (prev ≫= watchedAt) now);
       voiceRecording := None;
       voiceRecordings := Some (migrated_recordings prev ++ [recording])%list;
       parentReviewed := Some false;
       lastPosition := None;
       videoDuration := None;
       dailyWatchTime := None |} in
  let video' :=
    Video.set_totalViews
      (if default false (watched <$> prev) then Video.totalViews video
       else Video.totalViews video + 1)
      (Video.set_progress (Js.assign kidId entry (Video.progress video)) video) in
  exists db',
    markVideoWatched now videoId kidId recording userId db = (db', Done video') /\
    getVideo videoId userId db' = Some video' /\
    kidsTable db' = kidsTable db /\
    foldersTable db' = foldersTable db /\
    globalSubscriptionsTable db' = globalSubscriptionsTable db.
Proof.
  intros Hv Hgate prev entry video'.
  unfold markVideoWatched. rewrite Hv. cbv zeta. rewrite Hgate.
  eexists. split; [reflexivity|]. split; [|auto].
  apply (getVideo_rewritten
           (fun v => Video.set_totalViews _ (Video.set_progress _ v)));
    [reflexivity | exact Hv].
Qed.

(** C1: a kid who has not completed the video is turned away once the
    video's [totalViews] has reached the cap of 4: the call answers the
    view-cap rejection and hands back the database it was given, so no
    recording, no progress entry and no counter has changed. *)
Theorem markVideoWatched_cap_rejects now videoId kidId recording userId db video :
  getVideo videoId userId db = Some video ->
  (forall p, Video.progress video !! kidId = Some p -> watched p = false) ->
  Video.totalViews video = MAX_VIDEO_VIEWS ->
  markVideoWatched now videoId kidId recording userId db
  = (db, Rejected views_exhausted).
Proof.
  intros Hv Hnot Hcap. unfold markVideoWatched. rewrite Hv. cbv zeta.
  assert (Hw : default false (watched <$> Video.progress video !! kidId) = false).
  { destruct (Video.progress video !! kidId) as [p|]; [|reflexivity].
    simpl. apply Hnot. reflexivity. }
  rewrite Hw, Hcap. reflexivity.
Qed.



(** C1 on the sample library: [kid_b] has not completed [vid_full], which has
    its four views. *)
Lemma markVideoWatched_cap_rejects_witness :
  markVideoWatched Sample.noon "vid_full" "kid_b" (Sample.clip 2) Sample.parent Sample.db
  = (Sample.db, Rejected views_exhausted).
Proof.
  apply (markVideoWatched_cap_rejects _ _ _ _ _ _ Sample.full_video).
  - reflexivity.
  - intros p Hp. vm_compute in Hp. injection Hp as <-. reflexivity.
  - reflexivity.
Defined.





(** ** Deleting kids, videos and folders *)

Lemma filter_delete_where {A} (P : A -> Prop) `{!forall x, Decision (P x)} rows :
  filter P (delete_where P rows) = [].
Proof.
  unfold delete_where. induction rows as [|r rows IH]; [reflexivity|].
  destruct (decide (P r)) as [Hp|Hp].
  - rewrite (filter_cons_False (fun r => ~ P r)) by tauto. exact IH.
  - rewrite (filter_cons_True (fun r => ~ P r)) by exact Hp.
    rewrite filter_cons_False by exact Hp. exact IH.
Qed.

(** C2, the part the code keeps: [deleteKid] removes the kid's row, keeps
    every other kid, answers [true] (the handler 204) and deletes no video.
    It does not write to the videos table at all, so the [assigned] and
    [progress] maps are the ones it found. *)
Theorem deleteKid_keeps_videos id userId db :
  snd (deleteKid id userId db) = true /\
  getKid id userId (fst (deleteKid id userId db)) = None /\
  (forall r, r ∈ kidsTable (fst (deleteKid id userId db)) <->
             r ∈ kidsTable db /\ ~ (Kid.id (Kid.kid r) = id /\ Kid.userId r = userId)) /\
  videosTable (fst (deleteKid id userId db)) = videosTable db /\
  foldersTable (fst (deleteKid id userId db)) = foldersTable db /\
  delete_kid_route id userId db = (fst (deleteKid id userId db), send 204).
Proof.
  split; [reflexivity|]. split; [|split; [|split; [|split]]]; try reflexivity.
  - unfold getKid, deleteKid. simpl. rewrite filter_delete_where. reflexivity.
  - intros r. unfold deleteKid, delete_where. simpl.
    rewrite list_elem_of_filter. tauto.
Qed.

(** C2 on the sample library: after [kid_a] is deleted, a video of the owner
    still carries [kid_a] in [assigned] and in [progress]. *)
Lemma deleteKid_leaves_entries :
  getKid "kid_a" Sample.parent Sample.db = Some (Kid.mk "kid_a" "Ada" "girl") /\
  getKid "kid_a" Sample.parent (fst (deleteKid "kid_a" Sample.parent Sample.db)) = None /\
  exists video,
    getVideo "vid_open" Sample.parent (fst (deleteKid "kid_a" Sample.parent Sample.db))
    = Some video /\
    Video.assigned video !! "kid_a" = Some true /\
    Video.progress video !! "kid_a" = Some (Sample.seen [Sample.clip 3]).
Proof.
  split; [reflexivity|]. split; [reflexivity|].
  exists Sample.open_video. repeat split; reflexivity.
Qed.

(** C7: the three delete handlers answer 204 for every id, known or not. *)
Lemma delete_routes_always_204 id userId db :
  snd (delete_kid_route id userId db) = send 204 /\
  snd (delete_video_route id userId db) = send 204 /\
  snd (delete_folder_route id userId db) = send 204.
Proof. repeat split. Qed.

(** C7, in general: when no kid (no video) of the caller has the id, the
    handler answers 204 and the database is the one it was given. *)
Lemma delete_kid_route_unknown id userId db :
  getKid id userId db = None -> delete_kid_route id userId db = (db, send 204).
Proof.
  intros Hnone. unfold delete_kid_route, deleteKid. simpl.
  rewrite delete_where_none.
  - destruct db; reflexivity.
  - unfold getKid in Hnone.
    destruct (filter _ (kidsTable db)); [reflexivity | discriminate].
Qed.

Lemma delete_video_route_unknown id userId db :
  getVideo id userId db = None -> delete_video_route id userId db = (db, send 204).
Proof.
  intros Hnone. unfold delete_video_route, deleteVideo. simpl.
  rewrite delete_where_none.
  - destruct db; reflexivity.
  - unfold getVideo in Hnone.
    destruct (filter _ (videosTable db)); [reflexivity | discriminate].
Qed.

(** C7 on ids outside the caller's scope: an id that does not exist, a video
    and a folder of another owner. Nothing is deleted, and each handler
    reports success. *)
Lemma delete_out_of_scope_succeeds :
  getKid "kid_zz" Sample.parent Sample.db = None /\
  delete_kid_route "kid_zz" Sample.parent Sample.db = (Sample.db, send 204) /\
  getVideo "vid_m1" Sample.parent Sample.db = None /\
  delete_video_route "vid_m1" Sample.parent Sample.db = (Sample.db, send 204) /\
  getFolder "folder_m1" Sample.parent Sample.db = None /\
  delete_folder_route "folder_m1" Sample.parent Sample.db = (Sample.db, send 204).
Proof. repeat split; vm_compute; reflexivity. Qed.

(** ** Renaming a folder *)

Lemma trim_nonempty_truthy s : Js.trim s <> EmptyString -> Js.truthy s = true.
Proof. destruct s; [intros H; exfalso; apply H; reflexivity | reflexivity]. Qed.

Lemma length_zero_empty s : (String.length s =? 0)%nat = true <-> s = EmptyString.
Proof.
  destruct s; simpl; split; try reflexivity; discriminate.
Qed.

(** C6 (as amended): the rename handler checks only that the name is a
    string that is not blank once trimmed. On a folder of the caller: a
    missing name, a name that is no string and a blank string are answered
    400 and change nothing; every other name that the store can hold,
    reserved or not, is answered 200 and the folder now carries the trimmed
    name; a name with a NUL character, which the store refuses, is answered
    500 and changes nothing. *)
Theorem patch_folder_renames id userId name db existing :
  getFolder id userId db = Some existing ->
  (name = Missing \/ name = NotText \/
   (exists blank, name = Text blank /\ Js.trim blank = EmptyString) ->
   patch_folder_route id userId name db = (db, error 400 name_required)) /\
  (forall s, name = Text s -> Js.trim s <> EmptyString ->
     Js.storable (Js.trim s) = true ->
     exists db',
       patch_folder_route id userId name db
       = (db', json 200 (Folder.mk id (Js.trim s))) /\
       getFolder id userId db' = Some (Folder.mk id (Js.trim s)) /\
       videosTable db' = videosTable db /\
       kidsTable db' = kidsTable db) /\
  (forall s, name = Text s -> Js.trim s <> EmptyString ->
     Js.storable (Js.trim s) = false ->
     patch_folder_route id userId name db
     = (db, error 500 "Failed to update folder")).
Proof.
  intros Hf.
  assert (Hid : Folder.id existing = id).
  { unfold getFolder in Hf.
    destruct (head (filter _ (foldersTable db))) as [r|] eqn:Hr; [|discriminate].
    apply head_filter_holds in Hr as [[Hid _] _].
    simpl in Hf. injection Hf as <-. exact Hid. }
  assert (Hcheck : forall s, Js.trim s <> EmptyString ->
            negb (Js.truthy s) || (String.length (Js.trim s) =? 0)%nat = false).
  { intros s Hname. rewrite (trim_nonempty_truthy _ Hname). simpl.
    destruct (String.length (Js.trim s) =? 0)%nat eqn:E; [|reflexivity].
    apply length_zero_empty in E. contradiction. }
  split; [|split].
  - intros [-> | [-> | (blank & -> & Hblank)]]; try reflexivity.
    unfold patch_folder_route. rewrite Hblank. simpl.
    rewrite orb_true_r. reflexivity.
  - intros s -> Hname Hstore.
    unfold patch_folder_route. rewrite (Hcheck s Hname).
    unfold updateFolder. rewrite Hf. simpl. rewrite Hstore, Hid.
    eexists. split; [reflexivity|]. split; [|split; reflexivity].
    unfold getFolder. simpl.
    rewrite head_filter_update_where by (intros r; simpl; tauto).
    unfold getFolder in Hf.
    destruct (head (filter _ (foldersTable db))) as [r|] eqn:Hr; [|discriminate].
    apply head_filter_holds in Hr as [Hp _]. simpl.
    rewrite decide_True by exact Hp. simpl. destruct Hp as [-> _]. reflexivity.
  - intros s -> Hname Hstore.
    unfold patch_folder_route. rewrite (Hcheck s Hname).
    unfold updateFolder. rewrite Hf. simpl. rewrite Hstore. reflexivity.
Qed.

(** C6 on the sample library: the folder "Science" becomes "Physics", also
    when the name comes with no-break spaces around it; a name of no-break
    spaces only is blank. *)
Lemma patch_folder_renames_witness :
  let nbsp := String (ascii_of_nat 194) (String (ascii_of_nat 160) EmptyString) in
  let padded := String.append nbsp (String.append " Physics " nbsp) in
  (exists db',
     patch_folder_route "folder_p1" Sample.parent (Text padded) Sample.db
     = (db', json 200 (Folder.mk "folder_p1" "Physics")) /\
     getFolder "folder_p1" Sample.parent db' = Some (Folder.mk "folder_p1" "Physics")) /\
  patch_folder_route "folder_p1" Sample.parent (Text nbsp) Sample.db
  = (Sample.db, error 400 name_required) /\
  patch_folder_route "folder_p1" Sample.parent NotText Sample.db
  = (Sample.db, error 400 name_required).
Proof.
  cbv zeta. split; [|split].
  - destruct (patch_folder_renames "folder_p1" Sample.parent
                (Text (String.append
                         (String (ascii_of_nat 194) (String (ascii_of_nat 160) EmptyString))
                         (String.append " Physics "
                            (String (ascii_of_nat 194)
                               (String (ascii_of_nat 160) EmptyString)))))
                Sample.db (Folder.mk "folder_p1" "Science"))
      as (_ & Hrename & _); [reflexivity|].
    destruct (Hrename _ eq_refl) as (db' & Hrun & Hget & _);
      [discriminate | reflexivity |].
    exists db'. split; assumption.
  - destruct (patch_folder_renames "folder_p1" Sample.parent
                (Text (String (ascii_of_nat 194) (String (ascii_of_nat 160) EmptyString)))
                Sample.db (Folder.mk "folder_p1" "Science"))
      as (Hblank & _); [reflexivity|].
    apply Hblank. right. right. eexists. split; reflexivity.
  - destruct (patch_folder_renames "folder_p1" Sample.parent NotText
                Sample.db (Folder.mk "folder_p1" "Science"))
      as (Hblank & _); [reflexivity|].
    apply Hblank. right. left. reflexivity.
Defined.

(** C6 (as stated) fails: the owner renames the folder "Science" to the
    reserved name of a shadow folder; the handler accepts, and the next sync
    of that playlist takes the renamed folder for its shadow folder. *)
Lemma patch_folder_reserved_name :
  getFolder "folder_p1" Sample.parent Sample.db = Some (Folder.mk "folder_p1" "Science") /\
  shadow_name "folder_m1" = "__global_folder_m1" /\
  exists db',
    patch_folder_route "folder_p1" Sample.parent (Text "__global_folder_m1") Sample.db
    = (db', json 200 (Folder.mk "folder_p1" "__global_folder_m1")) /\
    getFolder "folder_p1" Sample.parent db'
    = Some (Folder.mk "folder_p1" "__global_folder_m1") /\
    fst (ensure_shadow_folder "1770000000000_z" Sample.parent "folder_m1" db')
    = "folder_p1".
Proof.
  split; [reflexivity|]. split; [reflexivity|].
  eexists. split; [vm_compute; reflexivity|]. split; vm_compute; reflexivity.
Qed.

(** ** Adding a video *)



Section CreateVideoFacts.

Context {api : UrlApi}.


End CreateVideoFacts.



(** ** Saving the playback position *)

Lemma inherited_proto k : Js.inherited k = false -> k <> "__proto__".
Proof. intros Hk ->. discriminate. Qed.

(** The ids that [createKid] draws are no property names of
    [Object.prototype]. *)
Lemma createKid_id_plain tag name avatar userId db :
  Js.inherited (Kid.id (snd (createKid tag name avatar userId db))) = false.
Proof.
  simpl. apply bool_decide_eq_false. unfold Js.inherited_names. intros H.
  repeat (apply elem_of_cons in H as [H|H]; [discriminate H|]).
  apply not_elem_of_nil in H. exact H.
Qed.



Lemma position_entry_fields now position duration p :
  let increment := position_increment position p in
  let p' := position_entry now position duration p in
  lastPosition p' = Js.json_number position /\
  dailyWatchTime p' =
    (if counts_as_playback increment
     then Some (<[String.substring 0 10 now :=
                  PrimFloat.add
                    (Js.num_or_zero (default ∅ (dailyWatchTime p)
                                       !! String.substring 0 10 now))
                    increment]> (default ∅ (dailyWatchTime p)))
     else dailyWatchTime p) /\
  videoDuration p' = from_option Js.json_number (videoDuration p)
                                 (positive_duration duration) /\
  watched p' = watched p /\
  watchedAt p' = watchedAt p /\
  voiceRecordings p' = voiceRecordings p /\
  parentReviewed p' = parentReviewed p.
Proof.
  unfold position_entry. cbv zeta.
  destruct (counts_as_playback (position_increment position p)),
    (positive_duration duration); simpl; repeat split; reflexivity.
Qed.

(** What a call on a video of the caller stores, for a kid id under which an
    assignment stores. *)
Lemma saveVideoPosition_stores now videoId kidId position userId duration db video :
  getVideo videoId userId db = Some video ->
  is_Some (Video.progress video !! kidId) \/ kidId <> "__proto__" ->
  let entry := position_entry now position duration
                 (default unwatched (Video.progress video !! kidId)) in
  let video' := Video.set_progress (<[kidId := entry]> (Video.progress video)) video in
  exists db',
    saveVideoPosition now videoId kidId position userId duration db = (db', true) /\
    getVideo videoId userId db' = Some video'.
Proof.
  intros Hv Hkey entry video'.
  unfold saveVideoPosition. unfold getVideo in Hv.
  destruct (filter _ (videosTable db)) as [|r rows] eqn:Hrows; [discriminate|].
  simpl in Hv. injection Hv as Hr. rewrite Hr.
  assert (Hassign : Js.assign kidId entry (Video.progress video)
                    = <[kidId := entry]> (Video.progress video)).
  { destruct Hkey as [[x Hx] | Hk];
      [apply (assign_own _ _ x); exact Hx | apply assign_stored; exact Hk]. }
  cbv zeta. fold entry. rewrite Hassign.
  eexists. split; [reflexivity|].
  unfold getVideo. simpl.
  rewrite head_filter_update_where by (intros x; simpl; tauto).
  rewrite Hrows. simpl.
  assert (Hin : r ∈ filter (fun r0 => Video.id (Video.video r0) = videoId /\
                              Video.userId r0 = userId) (videosTable db)).
  { rewrite Hrows. apply list_elem_of_here. }
  apply list_elem_of_filter in Hin as [[Hid _] _].
  rewrite decide_True by exact Hid. simpl. rewrite Hr. reflexivity.
Qed.




(** ** Synchronising a subscription *)

Lemma set_videos_set_videos vs vs' db :
  set_videos vs (set_videos vs' db) = set_videos vs db.
Proof. reflexivity. Qed.

Lemma set_videos_same db : set_videos (videosTable db) db = db.
Proof. destruct db; reflexivity. Qed.

Lemma sync_loop_inserts tag i userId localFolderId targetKids existingYtIds masterVideos db :
  sync_loop tag i userId localFolderId targetKids existingYtIds masterVideos db
  = set_videos
      (videosTable db ++
       shadow_copies tag i userId localFolderId targetKids existingYtIds masterVideos)%list
      db.
Proof.
  revert i db. induction masterVideos as [|mv rest IH]; intros i db; simpl.
  - rewrite app_nil_r. symmetry. apply set_videos_same.
  - destruct (decide (Video.ytId mv ∈ existingYtIds)); [apply IH|].
    rewrite IH. simpl. rewrite set_videos_set_videos, <- app_assoc. reflexivity.
Qed.

(** A run that finds every master video already present inserts nothing. *)
Lemma shadow_copies_none tag i userId localFolderId targetKids existingYtIds masterVideos :
  (forall mv, mv ∈ masterVideos -> Video.ytId mv ∈ existingYtIds) ->
  shadow_copies tag i userId localFolderId targetKids existingYtIds masterVideos = [].
Proof.
  revert i. induction masterVideos as [|mv rest IH]; intros i Hall; [reflexivity|].
  simpl. rewrite decide_True by (apply Hall; apply list_elem_of_here).
  apply IH. intros mv' Hin. apply Hall. apply list_elem_of_further. exact Hin.
Qed.

Lemma shadow_copies_placed tag i userId localFolderId targetKids existingYtIds
    masterVideos r :
  r ∈ shadow_copies tag i userId localFolderId targetKids existingYtIds masterVideos ->
  Video.userId r = userId /\ Video.folderId (Video.video r) = Some localFolderId.
Proof.
  revert i. induction masterVideos as [|mv rest IH]; intros i; simpl.
  - intros H. apply not_elem_of_nil in H. contradiction.
  - destruct (decide (Video.ytId mv ∈ existingYtIds)); [apply IH|].
    intros [-> | H]%elem_of_cons; [split; reflexivity | apply (IH _ H)].
Qed.

Lemma shadow_copies_cover tag i userId localFolderId targetKids existingYtIds
    masterVideos mv :
  mv ∈ masterVideos ->
  Video.ytId mv ∈ existingYtIds \/
  Video.ytId mv ∈
    (fun r => Video.ytId (Video.video r)) <$>
      shadow_copies tag i userId localFolderId targetKids existingYtIds masterVideos.
Proof.
  revert i. induction masterVideos as [|mv' rest IH]; intros i; simpl.
  - intros H. apply not_elem_of_nil in H. contradiction.
  - intros [-> | H]%elem_of_cons.
    + destruct (decide (Video.ytId mv' ∈ existingYtIds)); [left; assumption|].
      right. rewrite fmap_cons. apply list_elem_of_here.
    + destruct (IH (S i) H) as [Hl | Hr]; [left; exact Hl|]. right.
      destruct (decide (Video.ytId mv' ∈ existingYtIds)); [exact Hr|].
      rewrite fmap_cons. apply list_elem_of_further. exact Hr.
Qed.

Lemma ensure_shadow_folder_spec folderTag userId masterFolderId db localFolderId db1 :
  ensure_shadow_folder folderTag userId masterFolderId db = (localFolderId, db1) ->
  kidsTable db1 = kidsTable db /\
  videosTable db1 = videosTable db /\
  globalSubscriptionsTable db1 = globalSubscriptionsTable db /\
  (exists extra, foldersTable db1 = (foldersTable db ++ extra)%list) /\
  (exists r rest,
     filter (fun r => Folder.userId r = userId /\
                      Folder.name (Folder.folder r) = shadow_name masterFolderId)
            (foldersTable db1) = r :: rest /\
     Folder.id (Folder.folder r) = localFolderId).
Proof.
  unfold ensure_shadow_folder.
  destruct (filter _ (foldersTable db)) as [|r rest] eqn:E.
  - intros [= <- <-]. simpl. repeat split; try reflexivity.
    + eexists. reflexivity.
    + eexists _, _. rewrite filter_app, E. simpl.
      rewrite filter_cons_True by (split; reflexivity). split; reflexivity.
  - intros [= <- <-]. repeat split; try reflexivity.
    + exists []. rewrite app_nil_r. reflexivity.
    + exists r, rest. split; [exact E | reflexivity].
Qed.

Lemma ensure_shadow_folder_found folderTag userId masterFolderId db r rest :
  filter (fun r => Folder.userId r = userId /\
                   Folder.name (Folder.folder r) = shadow_name masterFolderId)
         (foldersTable db) = r :: rest ->
  ensure_shadow_folder folderTag userId masterFolderId db
  = (Folder.id (Folder.folder r), db).
Proof. intros E. unfold ensure_shadow_folder. rewrite E. reflexivity. Qed.

(** A database in which the subscription, the master folder and the shadow
    folder exist and the shadow folder already holds every master video is a
    fixed point of the sync. *)
Lemma syncSubscription_nothing_new folderTag tag userId masterFolderId masterUserId db
    sub subs m ms r rest :
  filter (fun s => Subscription.userId s = userId /\
                   Subscription.masterFolderId s = masterFolderId)
         (globalSubscriptionsTable db) = sub :: subs ->
  filter (fun r => Folder.id (Folder.folder r) = masterFolderId /\
                   Folder.userId r = masterUserId)
         (foldersTable db) = m :: ms ->
  filter (fun r => Folder.userId r = userId /\
                   Folder.name (Folder.folder r) = shadow_name masterFolderId)
         (foldersTable db) = r :: rest ->
  (forall mv, mv ∈ getGlobalVideos masterUserId masterFolderId db ->
     Video.ytId mv ∈
       (list_to_set
          ((fun r => Video.ytId (Video.video r)) <$>
             filter (fun v => Video.userId v = userId /\
                              Video.folderId (Video.video v)
                              = Some (Folder.id (Folder.folder r)))
                    (videosTable db)) : gset string)) ->
  syncSubscription folderTag tag userId masterFolderId masterUserId db = db.
Proof.
  intros Hsub Hmf Hshadow Hall. unfold syncSubscription.
  rewrite Hsub, Hmf.
  rewrite (ensure_shadow_folder_found folderTag userId masterFolderId db r rest Hshadow).
  rewrite sync_loop_inserts.
  rewrite shadow_copies_none by exact Hall.
  rewrite app_nil_r. apply set_videos_same.
Qed.

(** C4: a second [syncSubscription] for the same subscriber and master
    folder, run on the database the first one left, changes nothing: no
    folder and no video is created, whatever identifiers the two runs draw,
    and the videos of the shadow folder are the same. *)
Theorem syncSubscription_idempotent folderTag tag folderTag' tag'
    userId masterFolderId masterUserId db :
  let db1 := syncSubscription folderTag tag userId masterFolderId masterUserId db in
  let db2 := syncSubscription folderTag' tag' userId masterFolderId masterUserId db1 in
  db2 = db1 /\
  shadow_videos userId masterFolderId db2 = shadow_videos userId masterFolderId db1.
Proof.
  cbv zeta.
  set (db1 := syncSubscription folderTag tag userId masterFolderId masterUserId db).
  assert (Hfix : syncSubscription folderTag' tag' userId masterFolderId masterUserId db1
                 = db1); [|split; [exact Hfix | rewrite Hfix; reflexivity]].
  assert (Hdb1 : db1 = syncSubscription folderTag tag userId masterFolderId
                         masterUserId db) by reflexivity.
  clearbody db1. unfold syncSubscription in Hdb1.
  destruct (filter _ (globalSubscriptionsTable db)) as [|sub subs] eqn:Hsub.
  { subst db1. unfold syncSubscription. rewrite Hsub. reflexivity. }
  destruct (filter _ (foldersTable db)) as [|m ms] eqn:Hmf.
  { subst db1. unfold syncSubscription. rewrite Hsub, Hmf. reflexivity. }
  destruct (ensure_shadow_folder folderTag userId masterFolderId db)
    as [localFolderId dbf] eqn:Hens.
  apply ensure_shadow_folder_spec in Hens
    as (Hkids & Hvideos & Hsubs & [extra Hfolders] & (r & rest & Hshadow & Hid)).
  rewrite sync_loop_inserts in Hdb1.
  set (existing := (list_to_set _ : gset string)) in Hdb1.
  set (masterVideos := getGlobalVideos masterUserId masterFolderId dbf) in Hdb1.
  set (news := shadow_copies tag 0 userId localFolderId _ existing masterVideos) in Hdb1.
  subst db1.
  eapply (syncSubscription_nothing_new folderTag' tag' userId masterFolderId masterUserId
            _ sub subs m _ r rest).
  - simpl. rewrite Hsubs. exact Hsub.
  - simpl. rewrite Hfolders, filter_app, Hmf. reflexivity.
  - simpl. exact Hshadow.
  - intros mv Hmv. rewrite Hid. simpl.
    apply elem_of_list_to_set. rewrite filter_app, fmap_app, elem_of_app.
    assert (Hnews : forall x, x ∈ news ->
              Video.ytId (Video.video x) ∈
                (fun r0 => Video.ytId (Video.video r0)) <$>
                  filter (fun v => Video.userId v = userId /\
                                   Video.folderId (Video.video v) = Some localFolderId)
                         news).
    { intros x Hx. apply list_elem_of_fmap. exists x. split; [reflexivity|].
      apply list_elem_of_filter. split; [|exact Hx].
      apply (shadow_copies_placed _ _ _ _ _ _ _ _ Hx). }
    unfold getGlobalVideos in Hmv. simpl in Hmv.
    apply list_elem_of_fmap in Hmv as (row & -> & Hrow).
    rewrite filter_app, elem_of_app in Hrow. destruct Hrow as [Hold | Hnew].
    + assert (Hin : Video.video row ∈ masterVideos).
      { unfold masterVideos, getGlobalVideos. apply list_elem_of_fmap.
        exists row. split; [reflexivity | exact Hold]. }
      destruct (shadow_copies_cover tag 0 userId localFolderId
                  (target_kids (Subscription.kidIds sub) (getKids userId db))
                  existing masterVideos _ Hin) as [Hex | Hcopy].
      * left. unfold existing in Hex. apply elem_of_list_to_set in Hex. exact Hex.
      * right. apply list_elem_of_fmap in Hcopy as (x & -> & Hx).
        apply Hnews. exact Hx.
    + right. apply list_elem_of_filter in Hnew as [_ Hnew]. apply Hnews. exact Hnew.
Qed.

(** The first run on the sample library copies the two master videos into a
    new shadow folder; the second run finds them there. *)
Example syncSubscription_twice :
  let db1 := syncSubscription "1770000000000_f0" Sample.tags Sample.parent "folder_m1"
                              Sample.master Sample.db in
  shadow_videos Sample.parent "folder_m1" Sample.db = [] /\
  Video.ytId <$> shadow_videos Sample.parent "folder_m1" db1 = ["m1"; "m2"] /\
  Video.id <$> shadow_videos Sample.parent "folder_m1" db1
  = ["vid_1770000000000_a_g"; "vid_1770000000000_b_g"] /\
  syncSubscription "1770000000001_f1" Sample.tags Sample.parent "folder_m1"
                   Sample.master db1 = db1.
Proof. cbv zeta. repeat split; vm_compute; reflexivity. Qed.

(** * Further properties of the storage and the handlers *)

(** ** Loops that write videos back row by row *)

Lemma sum_list_zero (l : list nat) : Forall (fun n => n = O) l -> sum_list l = O.
Proof. induction 1 as [|n l -> _ IH]; [reflexivity | exact IH]. Qed.

Lemma sum_list_elem (l : list nat) n : n ∈ l -> (n <= sum_list l)%nat.
Proof.
  induction l as [|m l IH]; [intros H; apply not_elem_of_nil in H; contradiction|].
  intros [-> | H]%elem_of_cons; simpl; [lia|]. specialize (IH H). lia.
Qed.

Lemma List_filter_nil {A} (f : A -> bool) l :
  (forall x, x ∈ l -> f x = false) -> List.filter f l = [].
Proof.
  induction l as [|x l IH]; [reflexivity|]. intros H. simpl.
  rewrite (H x) by apply list_elem_of_here.
  apply IH. intros y Hy. apply H. apply list_elem_of_further. exact Hy.
Qed.

Lemma List_filter_elem {A} (f : A -> bool) l x :
  x ∈ l -> f x = true -> (0 < length (List.filter f l))%nat.
Proof.
  intros Hin Hf. assert (Hx : In x (List.filter f l)).
  { apply filter_In. split; [apply list_elem_of_In; exact Hin | exact Hf]. }
  destruct (List.filter f l); [destruct Hx | simpl; lia].
Qed.

(** A loop whose every turn rewrites each row on its own is a rewrite of each
    row by the whole loop. *)
Lemma fold_rowwise (g : Video.t -> Video.row -> Video.row)
    (step : Db -> Video.t -> Db) vs :
  (forall d v, step d v = set_videos (g v <$> videosTable d) d) ->
  forall db,
    fold_left step vs db
    = set_videos ((fun r => fold_left (fun r v => g v r) vs r) <$> videosTable db) db.
Proof.
  intros Hstep. induction vs as [|v vs IH]; intros db; simpl.
  - rewrite list_fmap_id. symmetry. apply set_videos_same.
  - rewrite IH, Hstep. simpl. rewrite <- list_fmap_compose. reflexivity.
Qed.

(** ** The parent badge *)

Lemma unreviewed_count_zero progress :
  unreviewed_count progress = O <->
  (forall k prog, progress !! k = Some prog -> unreviewed prog = false).
Proof.
  unfold unreviewed_count. split.
  - intros Hlen k prog Hk. destruct (unreviewed prog) eqn:E; [|reflexivity].
    assert (Hpos : (0 < length (List.filter (fun kv => unreviewed (snd kv))
                                  (map_to_list progress)))%nat).
    { apply (List_filter_elem _ _ (k, prog)); [|exact E].
      apply elem_of_map_to_list. exact Hk. }
    lia.
  - intros Hall. rewrite List_filter_nil; [reflexivity|].
    intros [k prog] Hin. apply elem_of_map_to_list in Hin. apply (Hall k prog Hin).
Qed.

Lemma unreviewed_count_pos progress k prog :
  progress !! k = Some prog -> unreviewed prog = true ->
  (0 < unreviewed_count progress)%nat.
Proof.
  intros Hk Hu. apply (List_filter_elem _ _ (k, prog)); [|exact Hu].
  apply elem_of_map_to_list. exact Hk.
Qed.

Lemma mark_reviewed_clear progress : unreviewed_count (mark_reviewed progress) = O.
Proof.
  apply unreviewed_count_zero. intros k prog. unfold mark_reviewed.
  rewrite lookup_fmap. destruct (progress !! k) as [e|]; [|discriminate].
  simpl. intros [= <-]. destruct (unreviewed e) eqn:E; [|exact E].
  unfold unreviewed. simpl. apply andb_false_r.
Qed.

Lemma clear_video_rowwise userId db video :
  clear_video userId db video
  = set_videos (clear_row userId video <$> videosTable db) db.
Proof.
  unfold clear_video, clear_row, update_where.
  destruct (0 <? unreviewed_count (Video.progress video))%nat; [reflexivity|].
  rewrite list_fmap_id. symmetry. apply set_videos_same.
Qed.

Lemma clear_row_keeps userId video r :
  Video.userId (clear_row userId video r) = Video.userId r /\
  Video.id (Video.video (clear_row userId video r)) = Video.id (Video.video r) /\
  Video.totalViews (Video.video (clear_row userId video r))
  = Video.totalViews (Video.video r) /\
  (Video.userId r <> userId -> clear_row userId video r = r).
Proof.
  unfold clear_row.
  destruct (0 <? unreviewed_count (Video.progress video))%nat; [|auto].
  destruct (decide _) as [[_ Hu]|]; simpl; auto.
  repeat split; try reflexivity. intros Hne. contradiction.
Qed.

Lemma clear_rows_keep userId vs r :
  let r' := fold_left (fun r v => clear_row userId v r) vs r in
  Video.userId r' = Video.userId r /\
  Video.id (Video.video r') = Video.id (Video.video r) /\
  Video.totalViews (Video.video r') = Video.totalViews (Video.video r) /\
  (Video.userId r <> userId -> r' = r).
Proof.
  revert r. induction vs as [|v vs IH]; intros r; simpl; [auto|].
  destruct (IH (clear_row userId v r)) as (Hu & Hi & Ht & Hother).
  destruct (clear_row_keeps userId v r) as (Hu1 & Hi1 & Ht1 & Hother1).
  rewrite Hu, Hi, Ht, Hu1, Hi1, Ht1. repeat split; try reflexivity.
  intros Hne. rewrite Hother by (rewrite Hu1; exact Hne). apply Hother1. exact Hne.
Qed.

(** A row of the owner ends the loop reviewed when it starts reviewed or
    when the loop meets a video with its id that has something to review. *)
Lemma clear_rows_reviewed userId vs r :
  Video.userId r = userId ->
  unreviewed_count (Video.progress (Video.video r)) = O \/
  (exists v, v ∈ vs /\ Video.id v = Video.id (Video.video r) /\
             (0 < unreviewed_count (Video.progress v))%nat) ->
  unreviewed_count
    (Video.progress (Video.video (fold_left (fun r v => clear_row userId v r) vs r)))
  = O.
Proof.
  revert r. induction vs as [|v vs IH]; intros r Hu Hcase; simpl.
  - destruct Hcase as [Hz | (v & Hin & _)]; [exact Hz|].
    apply not_elem_of_nil in Hin. contradiction.
  - destruct (clear_row_keeps userId v r) as (Hu1 & Hi1 & _).
    apply IH; [rewrite Hu1; exact Hu|].
    unfold clear_row in *.
    destruct (0 <? unreviewed_count (Video.progress v))%nat eqn:Hchanged.
    + destruct (decide (Video.id (Video.video r) = Video.id v /\ Video.userId r = userId))
        as [Hp|Hp].
      * left. simpl. apply mark_reviewed_clear.
      * destruct Hcase as [Hz | (v' & Hin & Hid & Hpos)]; [left; exact Hz|].
        apply elem_of_cons in Hin as [-> | Hin].
        { exfalso. apply Hp. split; [symmetry; exact Hid | exact Hu]. }
        right. exists v'. auto.
    + destruct Hcase as [Hz | (v' & Hin & Hid & Hpos)]; [left; exact Hz|].
      apply elem_of_cons in Hin as [-> | Hin].
      { apply Nat.ltb_ge in Hchanged. lia. }
      right. exists v'. auto.
Qed.

(** X1: after [clearParentBadge] the parent badge of that owner is zero; the
    kids, the folders and the videos of every other owner are as before, and
    no video is added or removed. *)
Theorem clearParentBadge_resets userId db :
  getBadgeCountForParent userId (clearParentBadge userId db) = O /\
  (forall other, other <> userId ->
     getVideos other (clearParentBadge userId db) = getVideos other db) /\
  length (videosTable (clearParentBadge userId db)) = length (videosTable db) /\
  kidsTable (clearParentBadge userId db) = kidsTable db /\
  foldersTable (clearParentBadge userId db) = foldersTable db.
Proof.
  unfold clearParentBadge.
  rewrite (fold_rowwise (clear_row userId) (clear_video userId))
    by apply clear_video_rowwise.
  set (vs := getVideos userId db).
  set (h := fun r => fold_left (fun r v => clear_row userId v r) vs r).
  assert (Hfilter : forall u, filter (fun r => Video.userId r = u) (h <$> videosTable db)
                              = h <$> filter (fun r => Video.userId r = u) (videosTable db)).
  { intros u. induction (videosTable db) as [|r rows IH]; [reflexivity|].
    rewrite fmap_cons.
    destruct (clear_rows_keep userId vs r) as (Hu & _).
    destruct (decide (Video.userId r = u)) as [Hr|Hr].
    - rewrite (filter_cons_True _ r) by exact Hr.
      rewrite filter_cons_True by (unfold h; rewrite Hu; exact Hr).
      rewrite fmap_cons, IH. reflexivity.
    - rewrite (filter_cons_False _ r) by exact Hr.
      rewrite filter_cons_False by (unfold h; rewrite Hu; exact Hr). exact IH. }
  split; [|split; [|split; [|split]]]; try reflexivity.
  - unfold getBadgeCountForParent, getVideos. simpl. rewrite Hfilter.
    apply sum_list_zero. rewrite <- !list_fmap_compose. apply Forall_fmap.
    apply Forall_forall. intros r Hr. simpl.
    apply list_elem_of_filter in Hr as [Hu Hin].
    apply clear_rows_reviewed; [exact Hu|].
    destruct (unreviewed_count (Video.progress (Video.video r))) eqn:E; [left; reflexivity|].
    right. exists (Video.video r). split; [|split; [reflexivity | rewrite E; lia]].
    unfold vs, getVideos. apply list_elem_of_fmap. exists r. split; [reflexivity|].
    apply list_elem_of_filter. auto.
  - intros other Hother. unfold getVideos. simpl. rewrite Hfilter.
    rewrite <- list_fmap_compose. apply list_fmap_ext.
    intros i r Hr. simpl. apply list_elem_of_lookup_2 in Hr.
    apply list_elem_of_filter in Hr as [Hu _].
    destruct (clear_rows_keep userId vs r) as (_ & _ & _ & Hsame).
    unfold h. rewrite Hsame by congruence. reflexivity.
  - simpl. apply length_fmap.
Qed.

(** ** What a completion leaves behind *)

Lemma getVideo_listed videoId userId db video :
  getVideo videoId userId db = Some video ->
  video ∈ getVideos userId db /\ Video.id video = videoId /\
  exists r, r ∈ videosTable db /\ Video.video r = video /\ Video.userId r = userId.
Proof.
  unfold getVideo, getVideos.
  destruct (head (filter _ (videosTable db))) as [r|] eqn:Hr; [|discriminate].
  apply head_filter_holds in Hr as [[Hid Hu] Hin]. simpl. intros [= <-].
  split; [|split; [exact Hid | exists r; auto]].
  apply list_elem_of_fmap. exists r. split; [reflexivity|].
  apply list_elem_of_filter. auto.
Qed.

(** A successful call, read backwards: the video was found, the gate was
    open, and the result is the one [markVideoWatched_accepts] describes. *)
Lemma markVideoWatched_done now videoId kidId recording userId db db' video' :
  markVideoWatched now videoId kidId recording userId db = (db', Done video') ->
  exists video,
    getVideo videoId userId db = Some video /\
    negb (default false (watched <$> Video.progress video !! kidId))
      && (MAX_VIDEO_VIEWS <=? Video.totalViews video) = false /\
    getVideo videoId userId db' = Some video' /\
    video' =
      Video.set_totalViews
        (if default false (watched <$> Video.progress video !! kidId)
         then Video.totalViews video else Video.totalViews video + 1)
        (Video.set_progress
           (Js.assign kidId
              {| watched := true;
                 watchedAt :=
                   Some (Js.str_or (Video.progress video !! kidId ≫= watchedAt) now);
                 voiceRecording := None;
                 voiceRecordings :=
                   Some (migrated_recordings (Video.progress video !! kidId)
                         ++ [recording])%list;
                 parentReviewed := Some false;
                 lastPosition := None;
                 videoDuration := None;
                 dailyWatchTime := None |} (Video.progress video)) video).
Proof.
  intros Hrun. destruct (getVideo videoId userId db) as [video|] eqn:Hv.
  - exists video. split; [reflexivity|].
    destruct (negb (default false (watched <$> Video.progress video !! kidId))
              && (MAX_VIDEO_VIEWS <=? Video.totalViews video)) eqn:Hgate.
    + unfold markVideoWatched in Hrun. rewrite Hv in Hrun. cbv zeta in Hrun.
      rewrite Hgate in Hrun. discriminate.
    + split; [reflexivity|].
      destruct (markVideoWatched_accepts now videoId kidId recording userId db video
                  Hv Hgate) as (db'' & Hrun' & Hget & _).
      rewrite Hrun in Hrun'. injection Hrun' as -> ->. split; [exact Hget | reflexivity].
  - unfold markVideoWatched in Hrun. rewrite Hv in Hrun. discriminate.
Qed.

(** X2: every successful [markVideoWatched] for a kid id other than
    [__proto__], a first completion or a re-watch, leaves the parent badge of
    the owner above zero. *)
Theorem markVideoWatched_raises_badge now videoId kidId recording userId db db' video' :
  kidId <> "__proto__" ->
  markVideoWatched now videoId kidId recording userId db = (db', Done video') ->
  (0 < getBadgeCountForParent userId db')%nat.
Proof.
  intros Hkey Hrun. apply markVideoWatched_done in Hrun as (video & _ & _ & Hget & ->).
  apply getVideo_listed in Hget as [Hin _].
  unfold getBadgeCountForParent.
  eapply Nat.lt_le_trans; [|apply sum_list_elem; apply list_elem_of_fmap;
                            eexists; split; [reflexivity | exact Hin]].
  simpl. rewrite assign_stored by exact Hkey.
  eapply unreviewed_count_pos; [apply lookup_insert_eq | reflexivity].
Qed.

(** X3: a successful [markVideoWatched] for a kid id other than [__proto__]
    never loses a recording: the list the kid had is a prefix of the new
    list, whose last element is the new recording. For every kid id, the
    entries of the other kids, the assignment map and the identity of the
    video are untouched. *)
Theorem markVideoWatched_keeps_recordings now videoId kidId recording userId db db'
    video video' :
  getVideo videoId userId db = Some video ->
  markVideoWatched now videoId kidId recording userId db = (db', Done video') ->
  (kidId <> "__proto__" ->
   exists p' recordings,
     Video.progress video' !! kidId = Some p' /\
     voiceRecordings p' = Some recordings /\
     default [] (Video.progress video !! kidId ≫= voiceRecordings)
       `prefix_of` recordings /\
     last recordings = Some recording) /\
  (forall other, other <> kidId ->
     Video.progress video' !! other = Video.progress video !! other) /\
  Video.assigned video' = Video.assigned video /\
  Video.ytId video' = Video.ytId video /\
  Video.folderId video' = Video.folderId video.
Proof.
  intros Hv Hrun. apply markVideoWatched_done in Hrun as (video0 & Hv0 & _ & _ & ->).
  rewrite Hv in Hv0. injection Hv0 as <-.
  split; [|split; [|auto]].
  - intros Hkey. eexists _, _.
    split; [simpl; rewrite assign_stored by exact Hkey; apply lookup_insert_eq|].
    split; [reflexivity|].
    split; [|apply last_snoc].
    unfold migrated_recordings.
    destruct (Video.progress video !! kidId ≫= voiceRecording) as [legacy|].
    + destruct (Z.of_nat (length _) =? 0).
      * rewrite <- app_assoc. apply prefix_app_r. reflexivity.
      * apply prefix_app_r. reflexivity.
    + apply prefix_app_r. reflexivity.
  - intros other Hne. simpl. apply assign_lookup_ne. exact Hne.
Qed.

(** X4: [markVideoWatched] builds the kid's entry anew from four fields, so
    what [saveVideoPosition] had stored for the kid (last position, duration,
    daily watch time) is gone after a completion. The kid id is any string
    that is no property name of [Object.prototype]. *)
Theorem markVideoWatched_drops_position now now' videoId kidId position duration
    recording userId db db1 db2 video2 :
  Js.inherited kidId = false ->
  saveVideoPosition now videoId kidId position userId duration db = (db1, true) ->
  markVideoWatched now' videoId kidId recording userId db1 = (db2, Done video2) ->
  exists p1 p2,
    (getVideo videoId userId db1 ≫= fun v => Video.progress v !! kidId) = Some p1 /\
    lastPosition p1 = Js.json_number position /\
    Video.progress video2 !! kidId = Some p2 /\
    lastPosition p2 = None /\ videoDuration p2 = None /\ dailyWatchTime p2 = None.
Proof.
  intros Hkey Hsave Hmark. apply inherited_proto in Hkey.
  apply markVideoWatched_done in Hmark as (video1 & Hv1 & _ & _ & ->).
  destruct (getVideo videoId userId db) as [video|] eqn:Hv.
  - destruct (saveVideoPosition_stores now videoId kidId position userId duration db
                video Hv (or_intror Hkey)) as (db1' & Hrun & Hget).
    rewrite Hsave in Hrun. injection Hrun as <-.
    rewrite Hget in Hv1. injection Hv1 as <-. rewrite Hget.
    eexists _, _. split; [simpl; apply lookup_insert_eq|].
    split; [apply position_entry_fields|].
    split; [simpl; rewrite assign_stored by exact Hkey; apply lookup_insert_eq|]. auto.
  - unfold saveVideoPosition in Hsave. unfold getVideo in Hv.
    destruct (filter _ (videosTable db)); [discriminate Hsave | discriminate Hv].
Qed.

(** X5: [markVideoWatched] keeps every video within the view cap: if no
    video has more than 4 views before the call, none has after it, whether
    the call succeeds or is refused; and a success adds at most one view. *)
Theorem markVideoWatched_keeps_cap now videoId kidId recording userId db :
  views_capped db ->
  views_capped (fst (markVideoWatched now videoId kidId recording userId db)) /\
  (forall video video',
     getVideo videoId userId db = Some video ->
     snd (markVideoWatched now videoId kidId recording userId db) = Done video' ->
     Video.totalViews video <= Video.totalViews video' <= Video.totalViews video + 1).
Proof.
  intros Hcap. unfold markVideoWatched.
  destruct (getVideo videoId userId db) as [video|] eqn:Hv; [|split; [exact Hcap | discriminate]].
  cbv zeta.
  destruct (negb (default false (watched <$> Video.progress video !! kidId))
            && (MAX_VIDEO_VIEWS <=? Video.totalViews video)) eqn:Hgate;
    [split; [exact Hcap | discriminate]|].
  apply getVideo_listed in Hv as (_ & _ & r0 & Hin0 & Hr0 & _).
  pose proof (Hcap r0 Hin0) as Hle. rewrite Hr0 in Hle.
  assert (Hnew : (if default false (watched <$> Video.progress video !! kidId)
                  then Video.totalViews video else Video.totalViews video + 1)
                 <= MAX_VIDEO_VIEWS).
  { destruct (default false (watched <$> Video.progress video !! kidId));
      [exact Hle|]. simpl in Hgate. apply Z.leb_gt in Hgate. lia. }
  split.
  - intros r Hr. simpl in Hr. unfold update_where in Hr.
    apply list_elem_of_fmap in Hr as (r1 & -> & Hr1).
    destruct (decide _); [exact Hnew | apply Hcap; exact Hr1].
  - intros v v' [= <-] [= <-]. simpl.
    destruct (default false (watched <$> Video.progress video !! kidId)); lia.
Qed.

(** ** Adding a kid *)







(** ** The handler that adds kids *)



(** ** Trimming *)

Section Strip.

Variables (w1 : ascii -> bool) (w2 : ascii -> ascii -> bool)
          (w3 : ascii -> ascii -> ascii -> bool).

(** What is left is an end of the list. *)
Lemma strip_suffix l : exists d, l = (d ++ Js.strip w1 w2 w3 l)%list.
Proof.
  remember (length l) as n eqn:Hn. revert l Hn.
  induction (lt_wf n) as [n _ IH]. intros l ->.
  destruct l as [|a l1]; [exists []; reflexivity|]. simpl.
  destruct (w1 a).
  { destruct (IH (length l1) ltac:(simpl; lia) l1 eq_refl) as [d Hd].
    exists (a :: d). simpl. congruence. }
  destruct l1 as [|b l2]; [exists []; reflexivity|].
  destruct (w2 a b).
  { destruct (IH (length l2) ltac:(simpl; lia) l2 eq_refl) as [d Hd].
    exists (a :: b :: d). simpl. congruence. }
  destruct l2 as [|c l3]; [exists []; reflexivity|].
  destruct (w3 a b c); [|exists []; reflexivity].
  destruct (IH (length l3) ltac:(simpl; lia) l3 eq_refl) as [d Hd].
  exists (a :: b :: c :: d). simpl. congruence.
Qed.

Lemma strip_clear l : space_ahead w1 w2 w3 l = false -> Js.strip w1 w2 w3 l = l.
Proof.
  destruct l as [|a [|b [|c l3]]]; simpl; try reflexivity.
  - destruct (w1 a); [discriminate | reflexivity].
  - destruct (w1 a); [discriminate|]. destruct (w2 a b); [discriminate | reflexivity].
  - destruct (w1 a); [discriminate|]. destruct (w2 a b); [discriminate|].
    destruct (w3 a b c); [discriminate | reflexivity].
Qed.

Lemma strip_clean l : space_ahead w1 w2 w3 (Js.strip w1 w2 w3 l) = false.
Proof.
  remember (length l) as n eqn:Hn. revert l Hn.
  induction (lt_wf n) as [n _ IH]. intros l ->.
  destruct l as [|a l1]; [reflexivity|]. simpl.
  destruct (w1 a) eqn:E1; [apply (IH (length l1)); [simpl; lia | reflexivity]|].
  destruct l1 as [|b l2]; [simpl; rewrite E1; reflexivity|].
  destruct (w2 a b) eqn:E2; [apply (IH (length l2)); [simpl; lia | reflexivity]|].
  destruct l2 as [|c l3]; [simpl; rewrite E1, E2; reflexivity|].
  destruct (w3 a b c) eqn:E3; [apply (IH (length l3)); [simpl; lia | reflexivity]|].
  simpl. rewrite E1, E2, E3. reflexivity.
Qed.

Lemma strip_fixed l : Js.strip w1 w2 w3 (Js.strip w1 w2 w3 l) = Js.strip w1 w2 w3 l.
Proof. apply strip_clear, strip_clean. Qed.

(** A list with no sequence at its front has none at the front of a
    beginning of it. *)
Lemma space_ahead_prefix l d :
  space_ahead w1 w2 w3 (l ++ d) = false -> space_ahead w1 w2 w3 l = false.
Proof.
  destruct l as [|a [|b [|c l3]]]; simpl; try reflexivity.
  - intros H. apply orb_false_iff in H as [-> _]. reflexivity.
  - intros H. apply orb_false_iff in H as [-> H]. simpl.
    destruct d; [exact H|]. apply orb_false_iff in H as [-> _]. reflexivity.
  - auto.
Qed.

End Strip.

Lemma trim_start_fixed s : Js.trim_start (Js.trim_start s) = Js.trim_start s.
Proof.
  unfold Js.trim_start. rewrite list_ascii_of_string_of_list_ascii.
  unfold Js.strip_front. rewrite strip_fixed. reflexivity.
Qed.

Lemma trim_end_fixed s : Js.trim_end (Js.trim_end s) = Js.trim_end s.
Proof.
  unfold Js.trim_end. rewrite list_ascii_of_string_of_list_ascii, rev_involutive.
  unfold Js.strip_back. rewrite strip_fixed. reflexivity.
Qed.

(** Trimming the end leaves a front without white space as it is. *)
Lemma trim_end_front s :
  Js.trim_start s = s -> Js.trim_start (Js.trim_end s) = Js.trim_end s.
Proof.
  unfold Js.trim_start, Js.trim_end. intros Hs.
  rewrite list_ascii_of_string_of_list_ascii.
  f_equal. apply strip_clear.
  destruct (strip_suffix Js.is_space (fun b a => Js.is_space2 a b)
              (fun c b a => Js.is_space3 a b c) (rev (list_ascii_of_string s)))
    as [d Hd].
  apply (space_ahead_prefix _ _ _ _ (rev d)).
  rewrite <- rev_app_distr. fold Js.strip_back in Hd. rewrite <- Hd, rev_involutive.
  assert (Hc : Js.strip_front (list_ascii_of_string s) = list_ascii_of_string s).
  { rewrite <- Hs at 2. rewrite list_ascii_of_string_of_list_ascii. reflexivity. }
  rewrite <- Hc. apply strip_clean.
Qed.

Lemma trim_fixed s : Js.trim (Js.trim s) = Js.trim s.
Proof.
  unfold Js.trim.
  rewrite (trim_end_front (Js.trim_start s)) by apply trim_start_fixed.
  apply trim_end_fixed.
Qed.

Section ClassifierWhitespace.

Context {api : UrlApi}.

(** X8: white space around a link never changes its classification, and the
    id the classifier answers is never empty; a TikTok id consists of
    digits only. *)
Theorem getVideoInfo_trims (url : string) :
  getVideoInfo (Js.trim url) = getVideoInfo url /\
  (forall platform videoId,
     getVideoInfo url = Some (platform, videoId) ->
     Js.truthy videoId = true /\
     (platform = tiktok -> Js.all_digits videoId = true)).
Proof.
  split.
  - unfold getVideoInfo, getYouTubeId, getTikTokId. rewrite trim_fixed. reflexivity.
  - intros platform videoId. rewrite getVideoInfo_order.
    destruct (getYouTubeId url) as [y|] eqn:Hy.
    + intros [= <- <-]. split; [apply (getYouTubeId_truthy url); exact Hy | discriminate].
    + destruct (getTikTokId url) as [t|] eqn:Ht; [|discriminate].
      intros [= <- <-]. split; [apply (getTikTokId_truthy url); exact Ht|].
      intros _. unfold getTikTokId in Ht.
      destruct (new_URL (Js.trim url)) as [u|]; [|discriminate]. simpl in Ht.
      destruct (String.eqb (host_of u) "tiktok.com" || String.eqb (host_of u) "m.tiktok.com");
        [|discriminate].
      unfold tiktok_path_id in Ht.
      destruct (Js.index_of "video" (path_parts u)) as [i|]; [|discriminate].
      destruct (Js.keep_truthy (nth_error (path_parts u) (S i))) as [v|]; [|discriminate].
      destruct (Js.digits_only v) eqn:Hd; [|discriminate]. injection Ht as <-.
      unfold Js.digits_only in Hd. apply andb_true_iff in Hd. tauto.
Qed.

End ClassifierWhitespace.

(** ** Renaming a kid *)

Lemma renamed_names_NoDup {A} (ident nm : A -> string) (id x : string) (ks : list A) :
  NoDup (ident <$> ks) -> NoDup (nm <$> ks) ->
  (forall k, k ∈ ks -> ident k <> id -> nm k <> x) ->
  NoDup ((fun k => if decide (ident k = id) then x else nm k) <$> ks).
Proof.
  induction ks as [|a ks IH]; [intros; apply NoDup_nil_2|].
  rewrite !fmap_cons. intros [Hia Hids]%NoDup_cons [Hna Hnames]%NoDup_cons Hcheck.
  apply NoDup_cons. split.
  - intros Hin. apply list_elem_of_fmap in Hin as (k & Hk & Hkin).
    destruct (decide (ident a = id)) as [Ha|Ha].
    + destruct (decide (ident k = id)) as [Hki|Hki].
      * apply Hia. apply list_elem_of_fmap. exists k. split; [congruence | exact Hkin].
      * apply (Hcheck k); [apply list_elem_of_further; exact Hkin | exact Hki |].
        symmetry. exact Hk.
    + destruct (decide (ident k = id)) as [Hki|Hki].
      * apply (Hcheck a); [apply list_elem_of_here | exact Ha | exact Hk].
      * apply Hna. apply list_elem_of_fmap. exists k. auto.
  - apply IH; [exact Hids | exact Hnames|].
    intros k Hk. apply Hcheck. apply list_elem_of_further. exact Hk.
Qed.

Lemma existsb_other_name id s kids :
  existsb (fun k => negb (String.eqb (Kid.id k) id)
                    && String.eqb (normal_name (Kid.name k)) (normal_name s)) kids = false ->
  forall k, k ∈ kids -> Kid.id k <> id -> normal_name (Kid.name k) <> normal_name s.
Proof.
  intros Hex k Hin Hid Heq.
  assert (Htrue : existsb (fun k => negb (String.eqb (Kid.id k) id)
                    && String.eqb (normal_name (Kid.name k)) (normal_name s)) kids = true).
  { apply existsb_exists. exists k. split; [apply list_elem_of_In; exact Hin|].
    apply andb_true_iff. split.
    - apply negb_true_iff. apply String.eqb_neq. exact Hid.
    - apply String.eqb_eq. exact Heq. }
  congruence.
Qed.

Lemma getKids_updated userId id (f : Kid.t -> Kid.t) db :
  getKids userId
    (set_kids
       (update_where (fun r => Kid.id (Kid.kid r) = id /\ Kid.userId r = userId)
          (fun r => Kid.mkRow (Kid.userId r) (f (Kid.kid r))) (kidsTable db)) db)
  = (fun k => if decide (Kid.id k = id) then f k else k) <$> getKids userId db.
Proof.
  unfold getKids, update_where. simpl.
  induction (kidsTable db) as [|r rows IH]; [reflexivity|].
  rewrite fmap_cons. destruct (decide (Kid.userId r = userId)) as [Hu|Hu].
  - rewrite (filter_cons_True _ r) by exact Hu.
    rewrite filter_cons_True by (destruct (decide _); exact Hu).
    rewrite !fmap_cons, IH. f_equal.
    destruct (decide (Kid.id (Kid.kid r) = id)) as [Hid|Hid].
    + rewrite decide_True by auto. reflexivity.
    + rewrite decide_False by tauto. reflexivity.
  - rewrite (filter_cons_False _ r) by exact Hu.
    rewrite filter_cons_False; [exact IH|].
    destruct (decide _) as [[_ H]|]; [contradiction | exact Hu].
Qed.

(** X9: renaming keeps kid names distinct. For an owner whose kids have
    distinct ids and names that differ up to case and surrounding white
    space, the names still differ after any rename request, accepted or not;
    the owner has the same kid ids as before, in whatever order the store
    lists them, and the videos are untouched. *)
Theorem patch_kid_route_keeps_names id userId name db :
  NoDup (kid_ids userId db) ->
  NoDup (kid_names userId db) ->
  let db' := fst (patch_kid_route id userId name db) in
  NoDup (kid_names userId db') /\
  kid_ids userId db' ≡ₚ kid_ids userId db /\
  videosTable db' = videosTable db.
Proof.
  intros Hids Hnames. cbv zeta. unfold patch_kid_route.
  destruct name as [|s|]; try (split; [assumption | split; reflexivity]).
  destruct (negb (Js.truthy s) || (String.length (Js.trim s) =? 0)%nat);
    [split; [assumption | split; reflexivity]|].
  cbv zeta.
  destruct (existsb _ (getKids userId db)) eqn:Hdup;
    [split; [assumption | split; reflexivity]|].
  unfold updateKid.
  destruct (getKid id userId db) as [existing|]; [|split; [assumption | split; reflexivity]].
  simpl. unfold kid_names, kid_ids.
  rewrite (getKids_updated userId id
             (fun k => Kid.mk (Kid.id k) (Js.trim s) (Kid.avatar existing))).
  rewrite <- !list_fmap_compose. split; [|split; [|reflexivity]].
  - erewrite list_fmap_ext;
      [apply (renamed_names_NoDup Kid.id (fun k => normal_name (Kid.name k)) id
                (normal_name s) (getKids userId db) Hids Hnames);
       apply existsb_other_name; exact Hdup|].
    intros i k _. simpl. destruct (decide (Kid.id k = id)); [|reflexivity].
    simpl. unfold normal_name. rewrite trim_fixed. reflexivity.
  - apply reflexive_eq, list_fmap_ext. intros i k _. simpl.
    destruct (decide (Kid.id k = id)); reflexivity.
Qed.

(** ** Writes stay within the owner's rows *)

Section Scoped.

Context {A : Type}.
Implicit Types (P Q : A -> Prop) (f : A -> A) (rows : list A).

Lemma filter_update_untouched P Q `{!forall x, Decision (P x)} `{!forall x, Decision (Q x)}
    f rows :
  (forall r, P r -> ~ Q r /\ ~ Q (f r)) ->
  filter Q (update_where P f rows) = filter Q rows.
Proof.
  intros Hsep. induction rows as [|r rows IH]; [reflexivity|].
  rewrite update_where_cons. destruct (decide (P r)) as [Hp|Hp].
  - destruct (Hsep r Hp) as [Hq Hq'].
    rewrite filter_cons_False by exact Hq'.
    rewrite filter_cons_False by exact Hq. exact IH.
  - destruct (decide (Q r)) as [Hq|Hq].
    + rewrite !filter_cons_True by exact Hq. rewrite IH. reflexivity.
    + rewrite !filter_cons_False by exact Hq. exact IH.
Qed.

Lemma filter_delete_untouched P Q `{!forall x, Decision (P x)} `{!forall x, Decision (Q x)}
    rows :
  (forall r, P r -> ~ Q r) ->
  filter Q (delete_where P rows) = filter Q rows.
Proof.
  intros Hsep. unfold delete_where. induction rows as [|r rows IH]; [reflexivity|].
  destruct (decide (P r)) as [Hp|Hp].
  - rewrite (filter_cons_False (fun r => ~ P r)) by tauto.
    rewrite (filter_cons_False Q) by (apply Hsep; exact Hp). exact IH.
  - rewrite (filter_cons_True (fun r => ~ P r)) by exact Hp.
    destruct (decide (Q r)) as [Hq|Hq].
    + rewrite !filter_cons_True by exact Hq. rewrite IH. reflexivity.
    + rewrite !filter_cons_False by exact Hq. exact IH.
Qed.

End Scoped.

Lemma getVideos_updated userId (Qv : Video.t -> Prop) `{!forall v, Decision (Qv v)}
    (f : Video.t -> Video.t) db :
  getVideos userId
    (set_videos
       (update_where (fun r => Qv (Video.video r) /\ Video.userId r = userId)
          (fun r => Video.mkRow (Video.userId r) (f (Video.video r))) (videosTable db)) db)
  = (fun v => if decide (Qv v) then f v else v) <$> getVideos userId db.
Proof.
  unfold getVideos, update_where. simpl.
  induction (videosTable db) as [|r rows IH]; [reflexivity|].
  rewrite fmap_cons. destruct (decide (Video.userId r = userId)) as [Hu|Hu].
  - rewrite (filter_cons_True _ r) by exact Hu.
    rewrite filter_cons_True by (destruct (decide _); exact Hu).
    rewrite !fmap_cons, IH. f_equal.
    destruct (decide (Qv (Video.video r))) as [Hq|Hq].
    + rewrite decide_True by auto. reflexivity.
    + rewrite decide_False by tauto. reflexivity.
  - rewrite (filter_cons_False _ r) by exact Hu.
    rewrite filter_cons_False; [exact IH|].
    destruct (decide _) as [[_ Hu']|]; [contradiction | exact Hu].
Qed.

Lemma getVideos_other_updated userId other (Qv : Video.t -> Prop)
    `{!forall v, Decision (Qv v)} (f : Video.t -> Video.t) db :
  other <> userId ->
  getVideos other
    (set_videos
       (update_where (fun r => Qv (Video.video r) /\ Video.userId r = userId)
          (fun r => Video.mkRow (Video.userId r) (f (Video.video r))) (videosTable db)) db)
  = getVideos other db.
Proof.
  intros Hne. unfold getVideos. simpl. f_equal.
  apply filter_update_untouched. intros r [_ Hu]. simpl. split; congruence.
Qed.

(** X10: deleting a folder deletes no video. The folder is gone; the owner
    has the videos it had, in whatever order the store lists them, each
    video that was in the folder now unfiled and otherwise the same and the
    others untouched; and no video of the owner refers to the folder any
    more. *)
Theorem deleteFolder_unfiles id userId db :
  let db' := fst (deleteFolder id userId db) in
  getFolder id userId db' = None /\
  getVideos userId db' ≡ₚ unfiled id <$> getVideos userId db /\
  (forall video, video ∈ getVideos userId db' -> Video.folderId video <> Some id) /\
  length (videosTable db') = length (videosTable db) /\
  kidsTable db' = kidsTable db.
Proof.
  cbv zeta. unfold deleteFolder. simpl.
  assert (Hvideos : getVideos userId
            (set_folders
               (delete_where (fun r => Folder.id (Folder.folder r) = id /\
                                       Folder.userId r = userId) (foldersTable db))
               (set_videos
                  (update_where
                     (fun r => Video.folderId (Video.video r) = Some id /\
                               Video.userId r = userId)
                     (fun r => Video.mkRow (Video.userId r)
                                 (Video.set_folderId None (Video.video r)))
                     (videosTable db)) db))
            = unfiled id <$> getVideos userId db).
  { exact (getVideos_updated userId (fun v => Video.folderId v = Some id)
             (Video.set_folderId None) db). }
  split; [|split; [rewrite Hvideos; reflexivity | split; [|split]]].
  - unfold getFolder. simpl. rewrite filter_delete_where. reflexivity.
  - intros video Hin. rewrite Hvideos in Hin.
    apply list_elem_of_fmap in Hin as (v & -> & _). unfold unfiled.
    destruct (decide (Video.folderId v = Some id)); [discriminate | assumption].
  - simpl. unfold update_where. apply length_fmap.
  - reflexivity.
Qed.



Lemma owner_view_same other db db' :
  getKids other db' = getKids other db ->
  getFolders other db' = getFolders other db ->
  getVideos other db' = getVideos other db ->
  owner_view other db' = owner_view other db.
Proof. unfold owner_view. intros -> -> ->. reflexivity. Qed.

Ltac untouched :=
  apply owner_view_same; unfold getKids, getFolders, getVideos; simpl;
  first
    [ reflexivity
    | f_equal;
      first
        [ apply filter_update_untouched; intros ? [_ ?]; simpl; split; congruence
        | apply filter_delete_untouched; intros ? [_ ?]; congruence
        | rewrite filter_app, filter_cons_False by (simpl; congruence);
          apply app_nil_r ] ].

Section ScopedWrites.

Context {api : UrlApi}.

(** X12: the storage methods that select the rows they write by owner never
    touch another owner's data: after [markVideoWatched], [updateVideo],
    [deleteVideo], [createVideo], [deleteFolder], [updateFolder],
    [createFolder], [deleteKid] or [updateKid] called for one owner, every
    other owner reads the same kids, folders and videos as before. *)
Theorem writes_stay_in_scope userId other db :
  other <> userId ->
  (forall now videoId kidId recording,
     owner_view other (fst (markVideoWatched now videoId kidId recording userId db))
     = owner_view other db) /\
  (forall id priority folderId,
     owner_view other (fst (updateVideo id userId priority folderId db))
     = owner_view other db) /\
  (forall id, owner_view other (fst (deleteVideo id userId db)) = owner_view other db) /\
  (forall tag url kidIds allKids folderId priority,
     owner_view other (fst (createVideo tag url kidIds allKids userId folderId priority db))
     = owner_view other db) /\
  (forall id, owner_view other (fst (deleteFolder id userId db)) = owner_view other db) /\
  (forall id name,
     owner_view other (fst (updateFolder id userId name db)) = owner_view other db) /\
  (forall tag name,
     owner_view other (fst (createFolder tag name userId db)) = owner_view other db) /\
  (forall id, owner_view other (fst (deleteKid id userId db)) = owner_view other db) /\
  (forall id name avatar,
     owner_view other (fst (updateKid id userId name avatar db)) = owner_view other db).
Proof.
  intros Hne. repeat split.
  - intros now videoId kidId recording. unfold markVideoWatched.
    destruct (getVideo videoId userId db); [|reflexivity]. cbv zeta.
    destruct (negb _ && _); [reflexivity|]. untouched.
  - intros id priority folderId. unfold updateVideo.
    destruct (getVideo id userId db); [|reflexivity].
    destruct priority, folderId; try reflexivity;
      (destruct (video_columns _ _) as [[? ?]|]; [|reflexivity]); untouched.
  - intros id. unfold deleteVideo. untouched.
  - intros tag url kidIds allKids folderId priority. unfold createVideo.
    destruct (getVideoInfo url) as [[platform videoId]|]; [|reflexivity].
    destruct (0 <? _); [reflexivity|]. untouched.
  - intros id. unfold deleteFolder. untouched.
  - intros id name. unfold updateFolder.
    destruct (getFolder id userId db); [|reflexivity]. cbv zeta.
    destruct (Js.storable _); [untouched | reflexivity].
  - intros tag name. unfold createFolder. untouched.
  - intros id. unfold deleteKid. untouched.
  - intros id name avatar. unfold updateKid.
    destruct (getKid id userId db); [|reflexivity]. untouched.
Qed.

End ScopedWrites.

(** ** Who a new video is given to *)

Lemma assign_fold_lookup {V} (c : V) (ks : list Kid.t) (m : gmap string V) k :
  fold_left (fun m kid => <[Kid.id kid := c]> m) ks m !! k
  = if bool_decide (k ∈ Kid.id <$> ks) then Some c else m !! k.
Proof.
  revert m. induction ks as [|kid ks IH]; intros m.
  - reflexivity.
  - cbn [fold_left]. rewrite IH, fmap_cons.
    destruct (decide (k ∈ Kid.id <$> ks)) as [Hin|Hin].
    + rewrite !bool_decide_eq_true_2;
        [reflexivity | apply list_elem_of_further; exact Hin | exact Hin].
    + rewrite (bool_decide_eq_false_2 _ Hin).
      destruct (decide (Kid.id kid = k)) as [<-|Hne].
      * rewrite lookup_insert_eq.
        rewrite bool_decide_eq_true_2 by apply list_elem_of_here. reflexivity.
      * rewrite lookup_insert_ne by exact Hne.
        rewrite bool_decide_eq_false_2; [reflexivity|].
        intros [Heq | Hin']%elem_of_cons; [congruence | contradiction].
Qed.

Lemma target_kids_ids kidIds allKids k :
  bool_decide (k ∈ Kid.id <$> target_kids kidIds allKids) = given_to kidIds allKids k.
Proof.
  unfold target_kids, given_to. destruct kidIds as [|k0 ks]; simpl.
  - rewrite andb_true_r. reflexivity.
  - apply eq_true_iff_eq. rewrite andb_true_iff, !bool_decide_eq_true.
    rewrite !list_elem_of_fmap. split.
    + intros (kid & -> & Hkid). apply list_elem_of_filter in Hkid as [Hreq Hin].
      split; [exists kid; auto | exact Hreq].
    + intros [(kid & -> & Hin) Hreq]. exists kid. split; [reflexivity|].
      apply list_elem_of_filter. auto.
Qed.

Lemma assign_all_lookup kidIds allKids k :
  assign_all (target_kids kidIds allKids) !! k
  = (if given_to kidIds allKids k then Some true else None) /\
  progress_all (target_kids kidIds allKids) !! k
  = (if given_to kidIds allKids k then Some unwatched else None).
Proof.
  unfold assign_all, progress_all. rewrite !assign_fold_lookup, target_kids_ids.
  rewrite !lookup_empty. auto.
Qed.

Section CreateVideoAssignment.

Context {api : UrlApi}.

(** X13: a video [createVideo] adds is given to the requested kids that
    exist, and to every kid when no id (or an empty list) is requested; ids
    that are not among the owner's kids are dropped without an error. Each of
    these kids gets [assigned = true] and an unwatched entry, no other key is
    written, and the video starts with no view and the default priority 5
    unless one is given. *)
Theorem createVideo_assignment tag url kidIds allKids userId folderId priority db video :
  snd (createVideo tag url kidIds allKids userId folderId priority db) = Done video ->
  (forall k,
     Video.assigned video !! k
     = (if given_to (default [] kidIds) allKids k then Some true else None) /\
     Video.progress video !! k
     = (if given_to (default [] kidIds) allKids k then Some unwatched else None)) /\
  Video.totalViews video = 0 /\
  Video.priority video = default 5 priority /\
  Video.url video = url /\
  getVideoInfo url = Some (Video.platform video, Video.ytId video).
Proof.
  unfold createVideo.
  destruct (getVideoInfo url) as [[platform videoId]|]; [|discriminate].
  destruct (0 <? _); [discriminate|]. simpl. intros [= <-]. simpl.
  split; [|auto]. intros k. apply assign_all_lookup.
Qed.

End CreateVideoAssignment.

(** ** What a sync adds *)

Lemma shadow_copies_from tag i userId localFolderId targetKids existingYtIds
    masterVideos r :
  r ∈ shadow_copies tag i userId localFolderId targetKids existingYtIds masterVideos ->
  exists mv j,
    mv ∈ masterVideos /\ (Video.ytId mv ∉ existingYtIds) /\
    r = shadow_copy (tag j) userId localFolderId targetKids mv.
Proof.
  revert i. induction masterVideos as [|mv rest IH]; intros i; simpl.
  - intros H. apply not_elem_of_nil in H. contradiction.
  - destruct (decide (Video.ytId mv ∈ existingYtIds)) as [Hin|Hin].
    + intros Hr. destruct (IH _ Hr) as (mv' & j & Hmv & Hfresh & ->).
      exists mv', j. split; [apply list_elem_of_further; exact Hmv | auto].
    + intros [-> | Hr]%elem_of_cons.
      * exists mv, i. split; [apply list_elem_of_here | auto].
      * destruct (IH _ Hr) as (mv' & j & Hmv & Hfresh & ->).
        exists mv', j. split; [apply list_elem_of_further; exact Hmv | auto].
Qed.

(** A sync only appends: at most one folder, the shadow folder, and copies of
    master videos placed in it. *)
Lemma syncSubscription_appends folderTag tag userId masterFolderId masterUserId db :
  exists newFolders newVideos,
    syncSubscription folderTag tag userId masterFolderId masterUserId db
    = mkDb (kidsTable db) (foldersTable db ++ newFolders) (videosTable db ++ newVideos)
           (globalSubscriptionsTable db) /\
    (forall f, f ∈ newFolders ->
       f = Folder.mkRow userId (Folder.mk (String.append "folder_" folderTag)
                                          (shadow_name masterFolderId))) /\
    (length newFolders <= 1)%nat /\
    (forall r, r ∈ newVideos ->
       exists sub mv j localFolderId,
         sub ∈ globalSubscriptionsTable db /\
         Subscription.userId sub = userId /\
         Subscription.masterFolderId sub = masterFolderId /\
         mv ∈ getGlobalVideos masterUserId masterFolderId db /\
         r = shadow_copy (tag j) userId localFolderId
               (target_kids (Subscription.kidIds sub) (getKids userId db)) mv).
Proof.
  assert (Hsame : db = mkDb (kidsTable db) (foldersTable db ++ []) (videosTable db ++ [])
                            (globalSubscriptionsTable db)).
  { rewrite !app_nil_r. destruct db; reflexivity. }
  assert (Hnone : exists newFolders newVideos : list _,
            db = mkDb (kidsTable db) (foldersTable db ++ newFolders)
                      (videosTable db ++ newVideos) (globalSubscriptionsTable db) /\
            (forall f, f ∈ newFolders ->
               f = Folder.mkRow userId (Folder.mk (String.append "folder_" folderTag)
                                                  (shadow_name masterFolderId))) /\
            (length newFolders <= 1)%nat /\
            (forall r, r ∈ newVideos ->
               exists sub mv j localFolderId,
                 sub ∈ globalSubscriptionsTable db /\
                 Subscription.userId sub = userId /\
                 Subscription.masterFolderId sub = masterFolderId /\
                 mv ∈ getGlobalVideos masterUserId masterFolderId db /\
                 r = shadow_copy (tag j) userId localFolderId
                       (target_kids (Subscription.kidIds sub) (getKids userId db)) mv)).
  { exists [], []. split; [exact Hsame|]. split; [|split; [simpl; lia|]];
      intros x Hx; apply not_elem_of_nil in Hx; contradiction. }
  unfold syncSubscription.
  destruct (filter _ (globalSubscriptionsTable db)) as [|sub subs] eqn:Hsub; [exact Hnone|].
  destruct (filter _ (foldersTable db)) as [|m ms] eqn:Hmf; [exact Hnone|].
  clear Hnone Hsame.
  assert (Hsubin : sub ∈ globalSubscriptionsTable db /\ Subscription.userId sub = userId /\
                   Subscription.masterFolderId sub = masterFolderId).
  { assert (Hin : sub ∈ sub :: subs) by apply list_elem_of_here.
    rewrite <- Hsub in Hin. apply list_elem_of_filter in Hin. tauto. }
  unfold ensure_shadow_folder.
  destruct (filter (fun r => Folder.userId r = userId /\
                             Folder.name (Folder.folder r) = shadow_name masterFolderId)
                   (foldersTable db)) as [|lf lfs] eqn:Hlf;
    cbv beta iota zeta; rewrite sync_loop_inserts; simpl.
  - eexists [_], _. split; [reflexivity|]. split; [|split; [simpl; lia|]].
    + intros f Hf. apply list_elem_of_singleton in Hf. exact Hf.
    + intros r Hr. apply shadow_copies_from in Hr as (mv & j & Hmv & _ & ->).
      exists sub, mv, j, (String.append "folder_" folderTag).
      destruct Hsubin as (H1 & H2 & H3). auto.
  - exists [], (shadow_copies tag 0 userId (Folder.id (Folder.folder lf))
                  (target_kids (Subscription.kidIds sub) (getKids userId db))
                  (list_to_set ((fun r => Video.ytId (Video.video r)) <$>
                     filter (fun r => Video.userId r = userId /\
                                      Video.folderId (Video.video r)
                                      = Some (Folder.id (Folder.folder lf)))
                            (videosTable db)))
                  (getGlobalVideos masterUserId masterFolderId db)).
    rewrite app_nil_r. split; [destruct db; reflexivity|].
    split; [|split; [simpl; lia|]].
    + intros f Hf. apply not_elem_of_nil in Hf. contradiction.
    + intros r Hr. apply shadow_copies_from in Hr as (mv & j & Hmv & _ & ->).
      exists sub, mv, j, (Folder.id (Folder.folder lf)).
      destruct Hsubin as (H1 & H2 & H3). auto.
Qed.

(** X14: a sync never changes or deletes what is there: kids and
    subscriptions are the same, the folders and videos that existed are an
    unchanged prefix of the tables, and every video added belongs to the
    subscriber, copies link, platform, id and priority of a master video of
    that folder, and starts with no view and with unwatched entries only. *)
Theorem syncSubscription_copies_fresh folderTag tag userId masterFolderId masterUserId db :
  let db' := syncSubscription folderTag tag userId masterFolderId masterUserId db in
  kidsTable db' = kidsTable db /\
  globalSubscriptionsTable db' = globalSubscriptionsTable db /\
  foldersTable db `prefix_of` foldersTable db' /\
  exists newVideos,
    videosTable db' = (videosTable db ++ newVideos)%list /\
    forall r, r ∈ newVideos ->
      Video.userId r = userId /\
      Video.totalViews (Video.video r) = 0 /\
      (forall k prog, Video.progress (Video.video r) !! k = Some prog -> prog = unwatched) /\
      (forall k, is_Some (Video.progress (Video.video r) !! k) <->
                 Video.assigned (Video.video r) !! k = Some true) /\
      exists mv,
        mv ∈ getGlobalVideos masterUserId masterFolderId db /\
        Video.url (Video.video r) = Video.url mv /\
        Video.ytId (Video.video r) = Video.ytId mv /\
        Video.platform (Video.video r) = Video.platform mv /\
        Video.priority (Video.video r) = Video.priority mv.
Proof.
  cbv zeta.
  destruct (syncSubscription_appends folderTag tag userId masterFolderId masterUserId db)
    as (newFolders & newVideos & -> & _ & _ & Hnew).
  simpl. split; [reflexivity|]. split; [reflexivity|].
  split; [apply prefix_app_r; reflexivity|].
  exists newVideos. split; [reflexivity|].
  intros r Hr. destruct (Hnew r Hr) as (sub & mv & j & localFolderId & _ & _ & _ & Hmv & ->).
  simpl. split; [reflexivity|]. split; [reflexivity|].
  pose proof (assign_all_lookup (Subscription.kidIds sub) (getKids userId db)) as Hlook.
  split; [|split].
  - intros k prog Hk. destruct (Hlook k) as [_ Hp]. rewrite Hp in Hk.
    destruct (given_to _ _ k); [congruence | discriminate].
  - intros k. destruct (Hlook k) as [Ha Hp]. rewrite Ha, Hp.
    destruct (given_to _ _ k); split; intros H;
      first [reflexivity | eexists; reflexivity | discriminate | destruct H; discriminate].
  - exists mv. auto.
Qed.

(** ** Subscribing and unsubscribing *)




Lemma syncSubscription_subscriptions folderTag tag userId masterFolderId masterUserId db :
  globalSubscriptionsTable
    (syncSubscription folderTag tag userId masterFolderId masterUserId db)
  = globalSubscriptionsTable db.
Proof.
  destruct (syncSubscription_appends folderTag tag userId masterFolderId masterUserId db)
    as (nf & nv & -> & _). reflexivity.
Qed.



Lemma filter_none {A} (P : A -> Prop) `{!forall x, Decision (P x)} (rows : list A) :
  (forall r, r ∈ rows -> ~ P r) -> filter P rows = [].
Proof.
  induction rows as [|r rows IH]; [reflexivity|]. intros Hall.
  rewrite filter_cons_False by (apply Hall; apply list_elem_of_here).
  apply IH. intros x Hx. apply Hall. apply list_elem_of_further. exact Hx.
Qed.




(** ** Listing the master's playlists *)

Lemma count_by_folder_lookup (rows : list Video.row) (m : gmap string nat) f :
  default O
    (fold_left
       (fun m r =>
          match Video.folderId (Video.video r) with
          | Some f => <[f := S (default O (m !! f))]> m
          | None => m
          end) rows m !! f)
  = (default O (m !! f)
     + length (filter (fun r => Video.folderId (Video.video r) = Some f) rows))%nat.
Proof.
  revert m. induction rows as [|r rows IH]; intros m; simpl; [lia|].
  rewrite IH. destruct (Video.folderId (Video.video r)) as [g|] eqn:Hg.
  - destruct (decide (g = f)) as [->|Hne].
    + rewrite lookup_insert_eq. simpl.
      rewrite filter_cons_True by exact Hg. simpl. lia.
    + rewrite lookup_insert_ne by exact Hne.
      rewrite filter_cons_False by (rewrite Hg; congruence). reflexivity.
  - rewrite filter_cons_False by (rewrite Hg; discriminate). reflexivity.
Qed.

(** X18: the playlist listing shows exactly the master's folders whose name
    does not begin with [__global_], in table order, and the count shown
    for each is the number of master videos in it, the very videos
    [getGlobalVideos] lists for that folder. *)
Theorem getGlobalFoldersWithCounts_counts masterUserId db :
  fst <$> getGlobalFoldersWithCounts masterUserId db = getGlobalFolders masterUserId db /\
  (forall folder n,
     (folder, n) ∈ getGlobalFoldersWithCounts masterUserId db ->
     Js.starts_with reserved_prefix (Folder.name folder) = false /\
     n = length (getGlobalVideos masterUserId (Folder.id folder) db)).
Proof.
  unfold getGlobalFoldersWithCounts.
  destruct (length (getGlobalFolders masterUserId db) =? 0)%nat eqn:Hlen.
  - apply Nat.eqb_eq in Hlen.
    destruct (getGlobalFolders masterUserId db); [|discriminate].
    split; [reflexivity|]. intros folder n Hin. apply not_elem_of_nil in Hin. contradiction.
  - cbv zeta. split.
    + rewrite <- list_fmap_compose. apply list_fmap_id.
    + intros folder n Hin. apply list_elem_of_fmap in Hin as (f & [= -> ->] & Hf).
      split.
      * unfold getGlobalFolders in Hf. apply list_elem_of_fmap in Hf as (r & -> & Hr).
        apply list_elem_of_filter in Hr as [Hname _]. exact Hname.
      * unfold count_by_folder. rewrite count_by_folder_lookup, lookup_empty. simpl.
        unfold getGlobalVideos. rewrite length_fmap, list_filter_filter. f_equal.
        apply list_filter_iff. intros r. split.
        -- intros [Hfolder [Hu _]]. auto.
        -- intros [Hu Hfolder]. split; [exact Hfolder|]. split; [exact Hu|].
           rewrite Hfolder. apply list_elem_of_fmap. exists (Folder.id f).
           split; [reflexivity|]. apply list_elem_of_fmap. exists f. auto.
Qed.

(** ** Cleaning the master's account *)

Lemma drop_global_folders_tables userId gfs db :
  let db' := fold_left (drop_global_folder userId) gfs db in
  kidsTable db' = kidsTable db /\
  globalSubscriptionsTable db' = globalSubscriptionsTable db /\
  (forall r, r ∈ foldersTable db' <->
     r ∈ foldersTable db /\
     Folder.id (Folder.folder r) ∉ (fun g => Folder.id (Folder.folder g)) <$> gfs) /\
  (forall r, r ∈ videosTable db' <->
     r ∈ videosTable db /\
     ~ (Video.userId r = userId /\
        exists g, g ∈ gfs /\
                  Video.folderId (Video.video r) = Some (Folder.id (Folder.folder g)))).
Proof.
  revert db. induction gfs as [|gf gfs IH]; intros db; simpl.
  - split; [reflexivity|]. split; [reflexivity|]. split; intros r.
    + split; [intros H; split; [exact H | apply not_elem_of_nil] | tauto].
    + split; [intros H; split; [exact H|] | tauto].
      intros [_ (g & Hg & _)]. apply not_elem_of_nil in Hg. exact Hg.
  - destruct (IH (drop_global_folder userId db gf)) as (Hk & Hs & Hf & Hv).
    split; [exact Hk|]. split; [exact Hs|]. split; intros r.
    + rewrite Hf. simpl. unfold delete_where. rewrite list_elem_of_filter.
      rewrite not_elem_of_cons. tauto.
    + rewrite Hv. simpl. unfold delete_where. rewrite list_elem_of_filter.
      split.
      * intros [[Hnot Hin] Hrest]. split; [exact Hin|].
        intros [Hu (g & Hg & Hfolder)].
        apply elem_of_cons in Hg as [-> | Hg]; [apply Hnot; auto|].
        apply Hrest. split; [exact Hu | exists g; auto].
      * intros [Hin Hnot]. split; [split; [|exact Hin]|].
        -- intros [Hu Hfolder]. apply Hnot. split; [exact Hu|].
           exists gf. split; [apply list_elem_of_here | exact Hfolder].
        -- intros [Hu (g & Hg & Hfolder)]. apply Hnot. split; [exact Hu|].
           exists g. split; [apply list_elem_of_further; exact Hg | exact Hfolder].
Qed.

(** X19: after [cleanupGlobalData] the account holds no subscription and no
    folder whose name begins with [__global_], and none of its videos lies
    in a folder that was such a folder of the account; its kids, and the
    subscriptions of everyone else, are as before, and nothing is added. *)
Theorem cleanupGlobalData_cleans userId db :
  let db' := cleanupGlobalData userId db in
  getSubscriptions userId db' = [] /\
  (forall folder, folder ∈ getFolders userId db' ->
     Js.starts_with reserved_prefix (Folder.name folder) = false) /\
  (forall video g,
     video ∈ getVideos userId db' ->
     g ∈ foldersTable db -> Folder.userId g = userId ->
     Js.starts_with reserved_prefix (Folder.name (Folder.folder g)) = true ->
     Video.folderId video <> Some (Folder.id (Folder.folder g))) /\
  (forall r, r ∈ videosTable db' -> r ∈ videosTable db) /\
  (forall r, r ∈ foldersTable db' -> r ∈ foldersTable db) /\
  kidsTable db' = kidsTable db /\
  (forall other, other <> userId ->
     getSubscriptions other db' = getSubscriptions other db).
Proof.
  cbv zeta. unfold cleanupGlobalData. cbv zeta.
  set (gfs := filter (fun r => Js.starts_with reserved_prefix
                                 (Folder.name (Folder.folder r)) = true)
                (filter (fun r => Folder.userId r = userId) (foldersTable db))).
  destruct (drop_global_folders_tables userId gfs db) as (Hk & Hs & Hf & Hv).
  cbv zeta in Hk, Hs, Hf, Hv.
  assert (Hgfs : forall g, g ∈ foldersTable db -> Folder.userId g = userId ->
                   Js.starts_with reserved_prefix (Folder.name (Folder.folder g)) = true ->
                   g ∈ gfs).
  { intros g Hg Hu Hname. unfold gfs. apply list_elem_of_filter. split; [exact Hname|].
    apply list_elem_of_filter. auto. }
  split; [|split; [|split; [|split; [|split; [|split]]]]].
  - unfold getSubscriptions. simpl. apply filter_delete_where.
  - intros folder Hin. unfold getFolders in Hin. simpl in Hin.
    apply list_elem_of_fmap in Hin as (r & -> & Hr).
    apply list_elem_of_filter in Hr as [Hu Hr]. apply Hf in Hr as [Hr Hnot].
    destruct (Js.starts_with reserved_prefix (Folder.name (Folder.folder r))) eqn:E;
      [|reflexivity].
    exfalso. apply Hnot. apply list_elem_of_fmap. exists r. split; [reflexivity|].
    apply Hgfs; assumption.
  - intros video g Hin Hg Hu Hname Hfolder. unfold getVideos in Hin. simpl in Hin.
    apply list_elem_of_fmap in Hin as (r & -> & Hr).
    apply list_elem_of_filter in Hr as [Hur Hr]. apply Hv in Hr as [_ Hnot].
    apply Hnot. split; [exact Hur|]. exists g. split; [apply Hgfs; assumption | exact Hfolder].
  - intros r Hr. simpl in Hr. apply Hv in Hr. tauto.
  - intros r Hr. simpl in Hr. apply Hf in Hr. tauto.
  - simpl. exact Hk.
  - intros other Hother. unfold getSubscriptions. simpl. rewrite Hs.
    apply filter_delete_untouched. intros s Hs'. congruence.
Qed.

(** ** Syncing every subscription *)

Lemma settled_fixed folderTag tag userId masterUserId db masterFolderId :
  settled userId masterUserId db masterFolderId ->
  syncSubscription folderTag tag userId masterFolderId masterUserId db = db.
Proof.
  intros [Hsub | [Hmf | (r & rest & Hshadow & Hall)]].
  - unfold syncSubscription. rewrite Hsub. reflexivity.
  - unfold syncSubscription. rewrite Hmf.
    destruct (filter _ (globalSubscriptionsTable db)); reflexivity.
  - destruct (filter (fun s => Subscription.userId s = userId /\
                               Subscription.masterFolderId s = masterFolderId)
                     (globalSubscriptionsTable db)) as [|sub subs] eqn:Hsub.
    { unfold syncSubscription. rewrite Hsub. reflexivity. }
    destruct (filter (fun r => Folder.id (Folder.folder r) = masterFolderId /\
                               Folder.userId r = masterUserId)
                     (foldersTable db)) as [|m ms] eqn:Hmf.
    { unfold syncSubscription. rewrite Hsub, Hmf. reflexivity. }
    apply (syncSubscription_nothing_new folderTag tag userId masterFolderId masterUserId
             db sub subs m ms r rest Hsub Hmf Hshadow).
    intros mv Hmv. apply elem_of_list_to_set. apply Hall. exact Hmv.
Qed.

(** A sync leaves its own playlist settled. *)
Lemma syncSubscription_settles folderTag tag userId masterFolderId masterUserId db :
  settled userId masterUserId
    (syncSubscription folderTag tag userId masterFolderId masterUserId db) masterFolderId.
Proof.
  set (db1 := syncSubscription folderTag tag userId masterFolderId masterUserId db).
  assert (Hdb1 : db1 = syncSubscription folderTag tag userId masterFolderId
                         masterUserId db) by reflexivity.
  clearbody db1. unfold syncSubscription in Hdb1.
  destruct (filter (fun s => Subscription.userId s = userId /\
                             Subscription.masterFolderId s = masterFolderId)
                   (globalSubscriptionsTable db)) as [|sub subs] eqn:Hsub.
  { subst db1. left. exact Hsub. }
  destruct (filter (fun r => Folder.id (Folder.folder r) = masterFolderId /\
                             Folder.userId r = masterUserId)
                   (foldersTable db)) as [|m ms] eqn:Hmf.
  { subst db1. right. left. exact Hmf. }
  destruct (ensure_shadow_folder folderTag userId masterFolderId db)
    as [localFolderId dbf] eqn:Hens.
  apply ensure_shadow_folder_spec in Hens
    as (Hkids & Hvideos & Hsubs & [extra Hfolders] & (r & rest & Hshadow & Hid)).
  rewrite sync_loop_inserts in Hdb1.
  set (existing := (list_to_set _ : gset string)) in Hdb1.
  set (masterVideos := getGlobalVideos masterUserId masterFolderId dbf) in Hdb1.
  set (news := shadow_copies tag 0 userId localFolderId _ existing masterVideos) in Hdb1.
  subst db1. right. right. exists r, rest. split; [exact Hshadow|].
  intros mv Hmv. rewrite Hid. simpl.
  rewrite filter_app, fmap_app, elem_of_app.
  assert (Hnews : forall x, x ∈ news ->
            Video.ytId (Video.video x) ∈
              (fun r0 => Video.ytId (Video.video r0)) <$>
                filter (fun v => Video.userId v = userId /\
                                 Video.folderId (Video.video v) = Some localFolderId)
                       news).
  { intros x Hx. apply list_elem_of_fmap. exists x. split; [reflexivity|].
    apply list_elem_of_filter. split; [|exact Hx].
    apply (shadow_copies_placed _ _ _ _ _ _ _ _ Hx). }
  unfold getGlobalVideos in Hmv. simpl in Hmv.
  apply list_elem_of_fmap in Hmv as (row & -> & Hrow).
  rewrite filter_app, elem_of_app in Hrow. destruct Hrow as [Hold | Hnew].
  - assert (Hin : Video.video row ∈ masterVideos).
    { unfold masterVideos, getGlobalVideos. apply list_elem_of_fmap.
      exists row. split; [reflexivity | exact Hold]. }
    destruct (shadow_copies_cover tag 0 userId localFolderId
                (target_kids (Subscription.kidIds sub) (getKids userId db))
                existing masterVideos _ Hin) as [Hex | Hcopy].
    + left. unfold existing in Hex. apply elem_of_list_to_set in Hex. exact Hex.
    + right. apply list_elem_of_fmap in Hcopy as (x & -> & Hx). apply Hnews. exact Hx.
  - right. apply list_elem_of_filter in Hnew as [_ Hnew]. apply Hnews. exact Hnew.
Qed.

(** A playlist that is settled stays settled when a subscriber who is not
    the master syncs any playlist. *)
Lemma settled_kept folderTag tag userId masterUserId db masterFolderId other :
  userId <> masterUserId ->
  settled userId masterUserId db masterFolderId ->
  settled userId masterUserId
    (syncSubscription folderTag tag userId other masterUserId db) masterFolderId.
Proof.
  intros Hne Hsettled.
  destruct (syncSubscription_appends folderTag tag userId other masterUserId db)
    as (nf & nv & -> & Hnf & _ & Hnv).
  assert (Hmaster : filter (fun r => Video.userId r = masterUserId /\
                              Video.folderId (Video.video r) = Some masterFolderId) nv = []).
  { apply filter_none. intros r Hr [Hu _].
    destruct (Hnv r Hr) as (sub & mv & j & lf & _ & _ & _ & _ & ->). simpl in Hu.
    congruence. }
  destruct Hsettled as [Hsub | [Hmf | (r & rest & Hshadow & Hall)]].
  - left. exact Hsub.
  - right. left. simpl. rewrite filter_app, Hmf. simpl.
    apply filter_none. intros f Hf [_ Hu]. rewrite (Hnf f Hf) in Hu. simpl in Hu.
    congruence.
  - right. right. exists r, (rest ++ filter (fun r => Folder.userId r = userId /\
                               Folder.name (Folder.folder r) = shadow_name masterFolderId)
                               nf)%list.
    split; [simpl; rewrite filter_app, Hshadow; reflexivity|].
    intros mv Hmv. unfold getGlobalVideos in Hmv. simpl in Hmv.
    rewrite filter_app, Hmaster, app_nil_r in Hmv.
    simpl. rewrite filter_app, fmap_app, elem_of_app. left. apply Hall. exact Hmv.
Qed.

Lemma sync_each_settles folderTag tag i userId masterUserId subs db :
  userId <> masterUserId ->
  forall masterFolderId,
    settled userId masterUserId db masterFolderId \/
    masterFolderId ∈ Subscription.masterFolderId <$> subs ->
    settled userId masterUserId
      (sync_each folderTag tag i userId masterUserId subs db) masterFolderId.
Proof.
  intros Hne. revert i db. induction subs as [|sub subs IH]; intros i db mf Hcase; simpl.
  - destruct Hcase as [H | H]; [exact H | apply not_elem_of_nil in H; contradiction].
  - apply IH. destruct Hcase as [H | H].
    + left. apply settled_kept; assumption.
    + rewrite fmap_cons in H. apply elem_of_cons in H as [-> | H].
      * left. apply syncSubscription_settles.
      * right. exact H.
Qed.

Lemma sync_each_fixed folderTag tag i userId masterUserId subs db :
  (forall sub, sub ∈ subs ->
     settled userId masterUserId db (Subscription.masterFolderId sub)) ->
  sync_each folderTag tag i userId masterUserId subs db = db.
Proof.
  revert i. induction subs as [|sub subs IH]; intros i Hall; simpl; [reflexivity|].
  rewrite settled_fixed by (apply Hall; apply list_elem_of_here).
  apply IH. intros s Hs. apply Hall. apply list_elem_of_further. exact Hs.
Qed.

Lemma sync_each_subscriptions folderTag tag i userId masterUserId subs db :
  globalSubscriptionsTable (sync_each folderTag tag i userId masterUserId subs db)
  = globalSubscriptionsTable db.
Proof.
  revert i db. induction subs as [|sub subs IH]; intros i db; simpl; [reflexivity|].
  rewrite IH. apply syncSubscription_subscriptions.
Qed.

Lemma syncAllSubscriptions_fixed folderTag tag folderTag' tag' userId masterUserId db :
  userId <> masterUserId ->
  syncAllSubscriptions folderTag' tag' userId masterUserId
    (syncAllSubscriptions folderTag tag userId masterUserId db)
  = syncAllSubscriptions folderTag tag userId masterUserId db.
Proof.
  intros Hne. unfold syncAllSubscriptions at 1.
  apply sync_each_fixed. intros sub Hsub.
  unfold getSubscriptions in Hsub.
  unfold syncAllSubscriptions in *. rewrite sync_each_subscriptions in Hsub.
  apply sync_each_settles; [exact Hne|]. right.
  apply list_elem_of_fmap. exists sub. split; [reflexivity | exact Hsub].
Qed.

(** X20: for a subscriber who is not the master, [syncAllSubscriptions] is
    idempotent: run on the database a first run left, whatever identifiers
    it draws, it creates no folder and no video and returns that database
    unchanged. *)
Theorem syncAllSubscriptions_idempotent folderTag tag folderTag' tag' userId
    masterUserId db :
  userId <> masterUserId ->
  let db1 := syncAllSubscriptions folderTag tag userId masterUserId db in
  syncAllSubscriptions folderTag' tag' userId masterUserId db1 = db1 /\
  getSubscriptions userId db1 = getSubscriptions userId db /\
  kidsTable db1 = kidsTable db.
Proof.
  intros Hne. cbv zeta. split; [apply syncAllSubscriptions_fixed; exact Hne|].
  unfold syncAllSubscriptions, getSubscriptions.
  rewrite sync_each_subscriptions. split; [reflexivity|].
  generalize (filter (fun s => Subscription.userId s = userId)
                (globalSubscriptionsTable db)) at 1.
  generalize 0%nat. intros i subs. revert i db.
  induction subs as [|sub subs IH]; intros i db; simpl; [reflexivity|].
  rewrite IH.
  destruct (syncSubscription_appends (folderTag i) (tag i) userId
              (Subscription.masterFolderId sub) masterUserId db) as (nf & nv & -> & _).
  reflexivity.
Qed.

(** X21: asking for the video list twice in a row gives the same answer, and
    the second request changes nothing: for the master the clean-up runs on
    the first request only, for everyone else the sync of the subscriptions
    finds nothing new the second time. *)
Theorem get_videos_route_repeatable MASTER_USER_ID folderTag tag folderTag' tag'
    userId state :
  let first := get_videos_route MASTER_USER_ID folderTag tag userId state in
  get_videos_route MASTER_USER_ID folderTag' tag' userId (fst first)
  = (fst first, snd first).
Proof.
  cbv zeta. destruct state as [cleaned db]. unfold get_videos_route.
  destruct (Js.truthy MASTER_USER_ID) eqn:Hmaster; simpl; [|reflexivity].
  destruct (String.eqb userId MASTER_USER_ID) eqn:Heq; simpl.
  - destruct (bool_decide (userId ∈ cleaned)) eqn:Hin; simpl.
    + rewrite ?Hmaster, ?Heq, ?Hin. reflexivity.
    + rewrite ?Hmaster, ?Heq. simpl.
      rewrite bool_decide_eq_true_2 by set_solver. reflexivity.
  - rewrite ?Hmaster, ?Heq. simpl. apply String.eqb_neq in Heq.
    rewrite syncAllSubscriptions_fixed by exact Heq. reflexivity.
Qed.

(** ** The badge of a kid *)

Lemma count_replaced {A} (ident : A -> string) (aw : A -> bool) (v0 v1 : A) (vs : list A) :
  NoDup (ident <$> vs) -> v0 ∈ vs ->
  (length (List.filter aw ((fun v => if decide (ident v = ident v0) then v1 else v) <$> vs))
   + Nat.b2n (aw v0)
   = length (List.filter aw vs) + Nat.b2n (aw v1))%nat.
Proof.
  induction vs as [|a vs IH]; [intros _ H; apply not_elem_of_nil in H; contradiction|].
  rewrite !fmap_cons. intros [Ha Hnd]%NoDup_cons Hin. simpl.
  apply elem_of_cons in Hin as [-> | Hin].
  - rewrite decide_True by reflexivity.
    assert (Htail : (fun v => if decide (ident v = ident a) then v1 else v) <$> vs = vs).
    { rewrite <- (list_fmap_id vs) at 2. apply list_fmap_ext. intros i v Hv.
      apply list_elem_of_lookup_2 in Hv. simpl.
      destruct (decide (ident v = ident a)) as [Heq|]; [|reflexivity].
      exfalso. apply Ha. rewrite <- Heq. apply list_elem_of_fmap. exists v. auto. }
    rewrite Htail. destruct (aw v1), (aw a); simpl; lia.
  - assert (Hne : ident a <> ident v0).
    { intros Heq. apply Ha. rewrite Heq. apply list_elem_of_fmap. exists v0. auto. }
    rewrite decide_False by exact Hne. specialize (IH Hnd Hin).
    destruct (aw a); simpl; lia.
Qed.

Lemma NoDup_fmap_same {A} (ident : A -> string) (vs : list A) x y :
  NoDup (ident <$> vs) -> x ∈ vs -> y ∈ vs -> ident x = ident y -> x = y.
Proof.
  induction vs as [|a vs IH]; [intros _ H; apply not_elem_of_nil in H; contradiction|].
  rewrite fmap_cons. intros [Ha Hnd]%NoDup_cons Hx Hy Heq.
  apply elem_of_cons in Hx as [-> | Hx]; apply elem_of_cons in Hy as [-> | Hy].
  - reflexivity.
  - exfalso. apply Ha. rewrite Heq. apply list_elem_of_fmap. exists y. auto.
  - exfalso. apply Ha. rewrite <- Heq. apply list_elem_of_fmap. exists x. auto.
  - apply IH; assumption.
Qed.

Lemma markVideoWatched_done_tables now videoId kidId recording userId db db' video video' :
  getVideo videoId userId db = Some video ->
  markVideoWatched now videoId kidId recording userId db = (db', Done video') ->
  video' = completed now kidId recording video /\
  getVideos userId db'
  = (fun v => if decide (Video.id v = videoId)
              then Video.set_totalViews
                     (Video.totalViews (completed now kidId recording video))
                     (Video.set_progress
                        (Video.progress (completed now kidId recording video)) v)
              else v) <$> getVideos userId db.
Proof.
  intros Hv Hrun. unfold markVideoWatched in Hrun. rewrite Hv in Hrun. cbv zeta in Hrun.
  destruct (negb _ && _); [discriminate|]. injection Hrun as <- <-.
  split; [reflexivity|].
  exact (getVideos_updated userId (fun v => Video.id v = videoId)
           (fun v => Video.set_totalViews
                       (Video.totalViews (completed now kidId recording video))
                       (Video.set_progress
                          (Video.progress (completed now kidId recording video)) v)) db).
Qed.

(** X22: with video ids that are distinct within the owner's library, and
    for a kid id that is no property name of [Object.prototype], a successful
    [markVideoWatched] takes exactly one video off the badge of the kid when
    the video was assigned to the kid and not yet watched, and none
    otherwise; the badge of every other kid id is unchanged. *)
Theorem markVideoWatched_kid_badge now videoId kidId recording userId db db' video video' :
  Js.inherited kidId = false ->
  NoDup (Video.id <$> getVideos userId db) ->
  getVideo videoId userId db = Some video ->
  markVideoWatched now videoId kidId recording userId db = (db', Done video') ->
  (getBadgeCountForKid kidId userId db' + Nat.b2n (awaits_kid kidId video)
   = getBadgeCountForKid kidId userId db)%nat /\
  (forall other, other <> kidId ->
     getBadgeCountForKid other userId db' = getBadgeCountForKid other userId db).
Proof.
  intros Hkey Hnd Hv Hrun. apply inherited_proto in Hkey.
  destruct (markVideoWatched_done_tables _ _ _ _ _ _ _ _ _ Hv Hrun) as [_ Hvideos].
  destruct (getVideo_listed _ _ _ _ Hv) as (Hin & Hid & _).
  assert (Hmap : getVideos userId db'
                 = (fun v => if decide (Video.id v = Video.id video)
                             then completed now kidId recording video else v)
                     <$> getVideos userId db).
  { rewrite Hvideos. apply list_fmap_ext. intros i v Hi. simpl. rewrite Hid.
    destruct (decide (Video.id v = videoId)) as [Hsame|]; [|reflexivity].
    apply list_elem_of_lookup_2 in Hi.
    rewrite (NoDup_fmap_same Video.id (getVideos userId db) v video Hnd Hi Hin)
      by congruence.
    reflexivity. }
  unfold getBadgeCountForKid. rewrite Hmap. split.
  - rewrite (count_replaced Video.id (awaits_kid kidId) video
               (completed now kidId recording video) (getVideos userId db) Hnd Hin).
    assert (Hdone : awaits_kid kidId (completed now kidId recording video) = false).
    { unfold awaits_kid, completed. simpl.
      rewrite assign_stored by exact Hkey. rewrite lookup_insert_eq. simpl.
      apply andb_false_r. }
    rewrite Hdone. simpl. lia.
  - intros other Hother.
    pose proof (count_replaced Video.id (awaits_kid other) video
                  (completed now kidId recording video) (getVideos userId db) Hnd Hin)
      as Hcount.
    assert (Hsame : awaits_kid other (completed now kidId recording video)
                    = awaits_kid other video).
    { unfold awaits_kid, completed. simpl.
      rewrite assign_lookup_ne by exact Hother. reflexivity. }
    rewrite Hsame in Hcount. lia.
Qed.

(** ** The trial status *)

(** X23: the trial status never shows a negative number of days; with a
    creation time that is not in the future it shows at most 30; the count
    never goes up as time passes; the status is frozen only while it is
    shown, from day 15 on, with at most 15 days left; and once it is no
    longer shown no day is left. *)
Theorem trial_status_bounds createdAt now :
  0 <= daysLeft (trial_status createdAt now) /\
  (forall start, createdAt = Some start -> start <= now ->
     daysLeft (trial_status createdAt now) <= 30) /\
  (forall later, now <= later ->
     daysLeft (trial_status createdAt later) <= daysLeft (trial_status createdAt now)) /\
  (frozen (trial_status createdAt now) = true ->
     show (trial_status createdAt now) = true /\
     daysLeft (trial_status createdAt now) <= 15) /\
  (forall start, createdAt = Some start ->
     show (trial_status createdAt now) = false ->
     daysLeft (trial_status createdAt now) = 0).
Proof.
  unfold trial_status, totalTrialDays. destruct createdAt as [start|]; simpl.
  - assert (Hday : 0 < msPerDay) by (unfold msPerDay; lia).
    split; [lia|]. split; [|split; [|split]].
    + intros s [= <-] Hle.
      assert (0 <= (now - start) / msPerDay) by (apply Z.div_pos; lia). lia.
    + intros later Hle.
      assert ((now - start) / msPerDay <= (later - start) / msPerDay)
        by (apply Z.div_le_mono; lia). lia.
    + intros Hf. apply andb_true_iff in Hf as [H15 H30].
      split; [exact H30|]. apply Z.leb_le in H15. lia.
    + intros s _ Hshow. apply Z.leb_gt in Hshow. lia.
  - split; [lia|]. split; [discriminate|]. split; [intros; lia|].
    split; discriminate.
Qed.

(** ** Tracking the position leaves the rest alone *)


(** ** The public pages of a kid *)


(** ** A sync covers the playlist *)

(** X26: after [syncSubscription] for a subscription that exists and a
    master folder that exists, the subscriber's shadow folder holds a video
    for every video id of the master folder. *)
Theorem syncSubscription_covers folderTag tag userId masterFolderId masterUserId db sub m :
  sub ∈ globalSubscriptionsTable db ->
  Subscription.userId sub = userId ->
  Subscription.masterFolderId sub = masterFolderId ->
  m ∈ foldersTable db ->
  Folder.id (Folder.folder m) = masterFolderId ->
  Folder.userId m = masterUserId ->
  forall mv, mv ∈ getGlobalVideos masterUserId masterFolderId db ->
    Video.ytId mv ∈
      Video.ytId <$>
        shadow_videos userId masterFolderId
          (syncSubscription folderTag tag userId masterFolderId masterUserId db).
Proof.
  intros Hsub Hsu Hsm Hm Hmi Hmu mv Hmv.
  pose proof (syncSubscription_settles folderTag tag userId masterFolderId masterUserId db)
    as Hsettled.
  destruct (syncSubscription_appends folderTag tag userId masterFolderId masterUserId db)
    as (nf & nv & Heq & _).
  rewrite Heq in *. clear Heq.
  destruct Hsettled as [Hnone | [Hnone | (r & rest & Hshadow & Hall)]].
  - exfalso. simpl in Hnone.
    assert (Hin : sub ∈ filter (fun s => Subscription.userId s = userId /\
                                  Subscription.masterFolderId s = masterFolderId)
                          (globalSubscriptionsTable db))
      by (apply list_elem_of_filter; auto).
    rewrite Hnone in Hin. apply not_elem_of_nil in Hin. exact Hin.
  - exfalso. simpl in Hnone. rewrite filter_app in Hnone.
    assert (Hin : m ∈ filter (fun r => Folder.id (Folder.folder r) = masterFolderId /\
                                Folder.userId r = masterUserId) (foldersTable db))
      by (apply list_elem_of_filter; auto).
    destruct (filter _ (foldersTable db)); [apply not_elem_of_nil in Hin; exact Hin|].
    discriminate.
  - unfold shadow_videos. rewrite Hshadow. rewrite <- list_fmap_compose.
    apply Hall. unfold getGlobalVideos in *. simpl. rewrite filter_app, fmap_app.
    apply elem_of_app. left. exact Hmv.
Qed.

(** ** The further properties on the sample libraries *)

Ltac each_row H :=
  repeat (apply elem_of_cons in H as [-> | H]; [vm_compute; try discriminate; try congruence|]);
  try (apply not_elem_of_nil in H; contradiction).

Lemma markVideoWatched_raises_badge_witness :
  (0 < getBadgeCountForParent Sample.parent
         (fst (markVideoWatched Sample.noon "vid_open" "kid_b" (Sample.clip 2)
                                Sample.parent Sample.db)))%nat.
Proof.
  destruct (markVideoWatched Sample.noon "vid_open" "kid_b" (Sample.clip 2)
                             Sample.parent Sample.db) as [db' [video'|e]] eqn:Hrun;
    [|vm_compute in Hrun; discriminate].
  eapply markVideoWatched_raises_badge; [|exact Hrun]; discriminate.
Defined.

Lemma markVideoWatched_keeps_recordings_witness :
  exists video' p' recordings,
    snd (markVideoWatched Sample.noon "vid_open" "kid_a" (Sample.clip 2)
                          Sample.parent Sample.db) = Done video' /\
    Video.progress video' !! "kid_a" = Some p' /\
    voiceRecordings p' = Some recordings /\
    [Sample.clip 3] `prefix_of` recordings /\
    last recordings = Some (Sample.clip 2).
Proof.
  destruct (markVideoWatched Sample.noon "vid_open" "kid_a" (Sample.clip 2)
                             Sample.parent Sample.db) as [db' [video'|e]] eqn:Hrun;
    [|vm_compute in Hrun; discriminate].
  destruct (markVideoWatched_keeps_recordings Sample.noon "vid_open" "kid_a"
              (Sample.clip 2) Sample.parent Sample.db db' Sample.open_video video')
    as (Hkept & _); [reflexivity | exact Hrun |].
  destruct Hkept as (p' & recordings & Hp & Hr & Hpre & Hlast); [discriminate|].
  exists video', p', recordings.
  split; [reflexivity|]. split; [exact Hp|]. split; [exact Hr|].
  split; [exact Hpre | exact Hlast].
Defined.

Lemma markVideoWatched_drops_position_witness :
  exists db1 db2 video2 p1 p2,
    saveVideoPosition Sample.noon "vid_open" "kid_b" 15 Sample.parent (Some 120%float)
                      Sample.db = (db1, true) /\
    markVideoWatched Sample.noon "vid_open" "kid_b" (Sample.clip 2) Sample.parent db1
    = (db2, Done video2) /\
    (getVideo "vid_open" Sample.parent db1 ≫= fun v => Video.progress v !! "kid_b")
    = Some p1 /\
    lastPosition p1 = Some 15%float /\
    Video.progress video2 !! "kid_b" = Some p2 /\
    lastPosition p2 = None /\ videoDuration p2 = None /\ dailyWatchTime p2 = None.
Proof.
  destruct (saveVideoPosition Sample.noon "vid_open" "kid_b" 15 Sample.parent
              (Some 120%float) Sample.db) as [db1 [|]] eqn:Hsave;
    [|vm_compute in Hsave; discriminate].
  destruct (markVideoWatched Sample.noon "vid_open" "kid_b" (Sample.clip 2)
                             Sample.parent db1) as [db2 [video2|e]] eqn:Hmark.
  - destruct (markVideoWatched_drops_position Sample.noon Sample.noon "vid_open" "kid_b"
                15 (Some 120%float) (Sample.clip 2) Sample.parent Sample.db db1 db2 video2)
      as (p1 & p2 & H1 & H2 & H3 & H4 & H5 & H6); [reflexivity | exact Hsave | exact Hmark |].
    exists db1, db2, video2, p1, p2. repeat split; assumption.
  - exfalso. vm_compute in Hsave. injection Hsave as <-.
    vm_compute in Hmark. discriminate.
Defined.

Lemma markVideoWatched_keeps_cap_witness :
  views_capped (fst (markVideoWatched Sample.noon "vid_open" "kid_b" (Sample.clip 2)
                                      Sample.parent Sample.db)).
Proof.
  apply markVideoWatched_keeps_cap.
  intros r Hr. unfold Sample.db in Hr. simpl in Hr. each_row Hr.
Defined.


Lemma patch_kid_route_keeps_names_witness :
  NoDup (kid_names Sample.parent
           (fst (patch_kid_route "kid_a" Sample.parent (Text " Adele ") Sample.db))).
Proof.
  apply patch_kid_route_keeps_names;
    apply (bool_decide_unpack _); vm_compute; exact I.
Defined.

Lemma writes_stay_in_scope_witness :
  owner_view Sample.master
    (fst (markVideoWatched Sample.noon "vid_open" "kid_b" (Sample.clip 2)
                           Sample.parent Sample.db))
  = owner_view Sample.master Sample.db /\
  owner_view Sample.master (fst (deleteFolder "folder_m1" Sample.parent Sample.db))
  = owner_view Sample.master Sample.db.
Proof.
  destruct (writes_stay_in_scope Sample.parent Sample.master Sample.db)
    as (Hmark & _ & _ & _ & Hfolder & _); [discriminate|].
  split; [apply Hmark | apply Hfolder].
Defined.

(** The example of the specification: a link added without kid ids goes to
    both kids. *)
Lemma createVideo_assignment_witness :
  exists video,
    snd (createVideo "1770000000000_ab12cd34" "https://youtu.be/abc123" (Some [])
                     Sample.two_kids Sample.parent None None Sample.empty_db)
    = Done video /\
    Video.platform video = youtube /\ Video.ytId video = "abc123" /\
    Video.assigned video !! "k1" = Some true /\
    Video.assigned video !! "k2" = Some true /\
    Video.assigned video !! "k3" = None /\
    Video.totalViews video = 0 /\ Video.priority video = 5.
Proof.
  destruct (snd (createVideo "1770000000000_ab12cd34" "https://youtu.be/abc123" (Some [])
                   Sample.two_kids Sample.parent None None Sample.empty_db))
    as [video|e] eqn:Hrun; [|vm_compute in Hrun; discriminate].
  destruct (createVideo_assignment _ _ _ _ _ _ _ _ _ Hrun)
    as (Hkeys & Hviews & Hprio & _ & Hinfo).
  exists video. split; [reflexivity|].
  rewrite classify_youtu_be in Hinfo. injection Hinfo as Hplatform HytId.
  split; [symmetry; exact Hplatform|]. split; [symmetry; exact HytId|].
  split; [apply (Hkeys "k1")|]. split; [apply (Hkeys "k2")|].
  split; [apply (Hkeys "k3")|]. split; assumption.
Defined.


Lemma syncAllSubscriptions_idempotent_witness :
  let db1 := syncAllSubscriptions Sample.folder_tags Sample.tags2 Sample.parent
                                  Sample.master Sample.db in
  length (videosTable db1) = 7%nat /\
  syncAllSubscriptions Sample.folder_tags Sample.tags2 Sample.parent Sample.master db1
  = db1.
Proof.
  cbv zeta. split; [reflexivity|].
  apply (syncAllSubscriptions_idempotent Sample.folder_tags Sample.tags2
           Sample.folder_tags Sample.tags2 Sample.parent Sample.master Sample.db).
  discriminate.
Defined.

Lemma markVideoWatched_kid_badge_witness :
  getBadgeCountForKid "kid_b" Sample.parent Sample.db = 3%nat /\
  getBadgeCountForKid "kid_b" Sample.parent
    (fst (markVideoWatched Sample.noon "vid_open" "kid_b" (Sample.clip 2)
                           Sample.parent Sample.db)) = 2%nat /\
  getBadgeCountForKid "kid_a" Sample.parent
    (fst (markVideoWatched Sample.noon "vid_open" "kid_b" (Sample.clip 2)
                           Sample.parent Sample.db))
  = getBadgeCountForKid "kid_a" Sample.parent Sample.db.
Proof.
  split; [reflexivity|].
  destruct (markVideoWatched Sample.noon "vid_open" "kid_b" (Sample.clip 2)
                             Sample.parent Sample.db) as [db' [video'|e]] eqn:Hrun;
    [|vm_compute in Hrun; discriminate].
  destruct (markVideoWatched_kid_badge Sample.noon "vid_open" "kid_b" (Sample.clip 2)
              Sample.parent Sample.db db' Sample.open_video video') as [Hkid Hothers];
    [reflexivity | apply (bool_decide_unpack _); vm_compute; exact I | reflexivity
    | exact Hrun |].
  simpl. split; [|apply Hothers; discriminate].
  change (getBadgeCountForKid "kid_b" Sample.parent Sample.db) with 3%nat in Hkid.
  change (Nat.b2n (awaits_kid "kid_b" Sample.open_video)) with 1%nat in Hkid. lia.
Defined.


Lemma syncSubscription_covers_witness :
  "m1" ∈ Video.ytId <$>
           shadow_videos Sample.parent "folder_m1"
             (syncSubscription "1770000000000_f0" Sample.tags Sample.parent "folder_m1"
                               Sample.master Sample.db).
Proof.
  apply (syncSubscription_covers "1770000000000_f0" Sample.tags Sample.parent "folder_m1"
           Sample.master Sample.db
           (Subscription.mkRow "gsub_1" Sample.parent "folder_m1" [] None)
           (Folder.mkRow Sample.master (Folder.mk "folder_m1" "Curated")))
    with (mv := Video.video (Sample.master_video "vid_m1" "m1"));
    [apply list_elem_of_here | reflexivity | reflexivity
    | apply list_elem_of_further, list_elem_of_here | reflexivity | reflexivity |].
  unfold getGlobalVideos. apply list_elem_of_fmap.
  exists (Sample.master_video "vid_m1" "m1"). split; [reflexivity|].
  apply list_elem_of_filter. split; [split; reflexivity|].
  unfold Sample.db. simpl. do 3 apply list_elem_of_further. apply list_elem_of_here.
Defined.

(** ** A new video and the badges *)


Section CreateVideoBadges.

Context {api : UrlApi}.


End CreateVideoBadges.


(** ** Deleting a video *)

(** X28: after [deleteVideo] the caller has no video with that id; its other
    videos, in their order, and its kids and folders are as before. *)
Theorem deleteVideo_removes id userId db :
  let db' := fst (deleteVideo id userId db) in
  getVideo id userId db' = None /\
  getVideos userId db' = filter (fun v => Video.id v <> id) (getVideos userId db) /\
  kidsTable db' = kidsTable db /\
  foldersTable db' = foldersTable db.
Proof.
  cbv zeta. unfold deleteVideo. simpl.
  split; [|split; [|split; reflexivity]].
  - unfold getVideo. simpl. rewrite filter_delete_where. reflexivity.
  - unfold getVideos, delete_where. simpl.
    induction (videosTable db) as [|r rows IH]; [reflexivity|].
    destruct (decide (Video.userId r = userId)) as [Hu|Hu].
    + rewrite (filter_cons_True (fun r => Video.userId r = userId) r) by exact Hu.
      rewrite fmap_cons. destruct (decide (Video.id (Video.video r) = id)) as [Hid|Hid].
      * rewrite (filter_cons_False _ r) by tauto.
        rewrite (filter_cons_False (fun v => Video.id v <> id)) by tauto. exact IH.
      * rewrite (filter_cons_True _ r) by tauto.
        rewrite filter_cons_True by exact Hu.
        rewrite (filter_cons_True (fun v => Video.id v <> id)) by exact Hid.
        rewrite fmap_cons, IH. reflexivity.
    + rewrite (filter_cons_False (fun r => Video.userId r = userId) r) by exact Hu.
      rewrite (filter_cons_True _ r) by tauto.
      rewrite filter_cons_False by exact Hu. exact IH.
Qed.
